(** * The Mini Apps event emitter of tma.js

    A shallow embedding of
    [packages/sdk/src/bridge/events/event-emitter/createMiniAppsEventEmitter.ts]:
    the table of per-event payload parsers, the two window listeners
    (resize and message) and the emitter object handed to the caller.

    JavaScript values are a small inductive type, numbers are binary64
    floats, exceptions are an explicit [Throw] result, and everything the
    browser or the listeners would observe (emissions, listener calls,
    logger output) is threaded through an explicit [State]. *)

From Stdlib Require Import List String Ascii Bool Arith Lia PrimFloat.
Import ListNotations.
Open Scope string_scope.
Open Scope list_scope.

(** ** JavaScript values *)

#[local] Set Warnings "-register-all".

Inductive JSValue : Type :=
| JUndefined
| JNull
| JBool (b : bool)
| JNum (n : float)
| JStr (s : string)
| JArr (items : list JSValue)
| JObj (fields : list (string * JSValue)).

(** [ToBoolean]: the test performed by [data ? ... : ...]. *)
Definition truthy (v : JSValue) : bool :=
  match v with
  | JUndefined | JNull => false
  | JBool b => b
  | JNum n => negb (PrimFloat.eqb n 0%float || PrimFloat.is_nan n)
  | JStr EmptyString => false
  | JStr (String _ _) => true
  | JArr _ | JObj _ => true
  end.

(** [value === null || value === undefined], also the test behind [??]. *)
Definition nullish (v : JSValue) : bool :=
  match v with
  | JUndefined | JNull => true
  | _ => false
  end.

(** Property read [record[key]]: a missing property reads as [undefined]. *)
Fixpoint prop (fields : list (string * JSValue)) (key : string) : JSValue :=
  match fields with
  | [] => JUndefined
  | (k, v) :: rest => if String.eqb k key then v else prop rest key
  end.

(** Property write [acc[key] = v] on an object literal under construction. *)
Fixpoint setProp (fields : list (string * JSValue)) (key : string) (v : JSValue)
  : list (string * JSValue) :=
  match fields with
  | [] => [(key, v)]
  | (k, old) :: rest =>
      if String.eqb k key then (k, v) :: rest else (k, old) :: setProp rest key v
  end.

(** ** Exceptions *)

Inductive Exception : Type :=
| ValidationError (expected : string)
| FieldError (field : string) (cause : Exception)
| NotAFunction (callee : string).

Inductive result (A : Type) : Type :=
| Ok (a : A)
| Throw (e : Exception).
Arguments Ok {A} a.
Arguments Throw {A} e.

Definition bind {A B : Type} (r : result A) (k : A -> result B) : result B :=
  match r with
  | Ok a => k a
  | Throw e => Throw e
  end.

Declare Scope js_scope.
Delimit Scope js_scope with js.
Notation "x <- r ;; k" := (bind r (fun x => k))
  (at level 61, r at next level, right associativity) : js_scope.

(** ** Imported modules that the emitter relies on *)

(** The decoded envelope, [MiniAppsMessage] of [parseMessage.ts]. *)
Record MiniAppsMessage : Type := {
  eventType : string;
  eventData : JSValue;
}.

(** Modelled from the spec: the parts of [@/parsing/parsers/*] and of
    [parseMessage.ts] that the specification leaves open.  Section 4.1 says a
    primitive parser "fails with a ValidationError if value cannot be coerced
    to T" without listing the coercions, so the coercion of a value that is
    not already of the target type is a field of this class; the colour
    notation of [rgb] and the envelope decoder (legacy key spellings, JSON
    text) are likewise left to the instance. *)
Class Imports : Type := {
  coerceString : JSValue -> option string;
  coerceNumber : JSValue -> option float;
  coerceBoolean : JSValue -> option bool;
  coerceRGB : JSValue -> option string;
  parseMessage : JSValue -> result MiniAppsMessage;
}.

Definition Parser : Type := JSValue -> result JSValue.

(** Modelled from the spec: [string()] of [@/parsing/parsers/string.js].
    A string parses to itself; [null] and [undefined] are rejected (only the
    optional variant accepts them); any other value goes through the
    coercion. *)
Definition parse_string `{Imports} : Parser := fun v =>
  match v with
  | JStr s => Ok (JStr s)
  | JUndefined | JNull => Throw (ValidationError "string")
  | _ =>
      match coerceString v with
      | Some s => Ok (JStr s)
      | None => Throw (ValidationError "string")
      end
  end.

Definition finite (n : float) : bool :=
  negb (PrimFloat.is_nan n || PrimFloat.is_infinity n).

(** Modelled from the spec: [number()] of [@/parsing/parsers/number.js];
    "must reject non-finite and non-numeric input". *)
Definition parse_number `{Imports} : Parser := fun v =>
  match v with
  | JNum n => if finite n then Ok (JNum n) else Throw (ValidationError "number")
  | JUndefined | JNull => Throw (ValidationError "number")
  | _ =>
      match coerceNumber v with
      | Some n => if finite n then Ok (JNum n) else Throw (ValidationError "number")
      | None => Throw (ValidationError "number")
      end
  end.

(** Modelled from the spec: [boolean()] of [@/parsing/parsers/boolean.js]. *)
Definition parse_boolean `{Imports} : Parser := fun v =>
  match v with
  | JBool b => Ok (JBool b)
  | JUndefined | JNull => Throw (ValidationError "boolean")
  | _ =>
      match coerceBoolean v with
      | Some b => Ok (JBool b)
      | None => Throw (ValidationError "boolean")
      end
  end.

(** Modelled from the spec: [rgb()] of [@/parsing/parsers/rgb.js]; "accepts a
    defined textual color notation and fails otherwise". *)
Definition parse_rgb `{Imports} : Parser := fun v =>
  match v with
  | JUndefined | JNull => Throw (ValidationError "rgb")
  | _ =>
      match coerceRGB v with
      | Some s => Ok (JStr s)
      | None => Throw (ValidationError "rgb")
      end
  end.

(** Modelled from the spec: the [.optional()] variant of a parser, which
    "accepts null/undefined and returns a sentinel absent value instead of
    failing". *)
Definition optional (p : Parser) : Parser := fun v =>
  if nullish v then Ok JUndefined else p v.

(** Modelled from the spec: [toRecord] of [@/parsing/toRecord.js]; the input
    must be an object-shaped value. *)
Definition toRecord (v : JSValue) : result (list (string * JSValue)) :=
  match v with
  | JObj fields => Ok fields
  | _ => Throw (ValidationError "json")
  end.

(** Modelled from the spec: [json(schema)] of [@/parsing/parsers/json.js].
    Each schema field parser is applied, in schema order, to the property of
    the same name; the first failure aborts; properties outside the schema are
    ignored. *)
Fixpoint parseFields (schema : list (string * Parser))
    (record : list (string * JSValue)) : result (list (string * JSValue)) :=
  match schema with
  | [] => Ok []
  | (field, p) :: rest =>
      match p (prop record field) with
      | Throw e => Throw (FieldError field e)
      | Ok v =>
          (parsed <- parseFields rest record ;; Ok ((field, v) :: parsed))%js
      end
  end.

Definition json (schema : list (string * Parser)) : Parser := fun v =>
  (record <- toRecord v ;;
   parsed <- parseFields schema record ;;
   Ok (JObj parsed))%js.

(** ** The window *)

(** The two closures that [createMiniAppsEventEmitter] hands to [onWindow]. *)
Inductive WindowListener : Type :=
| OnResize
| OnMessage.

Definition WindowListener_eqb (a b : WindowListener) : bool :=
  match a, b with
  | OnResize, OnResize | OnMessage, OnMessage => true
  | _, _ => false
  end.

(** What the code reads from and installs on the global [window]: the
    viewport size, the parent frame (frames are numbered), the listeners
    added through [onWindow] and whether the native event handlers of
    [defineEventHandlers] are installed. *)
Record Window : Type := {
  innerWidth : float;
  innerHeight : float;
  parent : nat;
  windowListeners : list (string * WindowListener);
  eventHandlersDefined : bool;
}.

Definition setWindowListeners (l : list (string * WindowListener)) (w : Window)
  : Window :=
  {| innerWidth := innerWidth w; innerHeight := innerHeight w;
     parent := parent w; windowListeners := l;
     eventHandlersDefined := eventHandlersDefined w |}.

Definition setEventHandlersDefined (b : bool) (w : Window) : Window :=
  {| innerWidth := innerWidth w; innerHeight := innerHeight w;
     parent := parent w; windowListeners := windowListeners w;
     eventHandlersDefined := b |}.

Definition setViewport (width height : float) (w : Window) : Window :=
  {| innerWidth := width; innerHeight := height;
     parent := parent w; windowListeners := windowListeners w;
     eventHandlersDefined := eventHandlersDefined w |}.

Definition sameWindowListener (a b : string * WindowListener) : bool :=
  String.eqb (fst a) (fst b) && WindowListener_eqb (snd a) (snd b).

(** Modelled from the spec: [onWindow] of [@/events/onWindow.js], "add/remove
    a message-type event listener and a resize-type event listener on the
    global window object".  Adding follows the DOM: a listener already present
    for that event type is not added again. *)
Definition onWindow (type : string) (l : WindowListener) (w : Window) : Window :=
  if existsb (sameWindowListener (type, l)) (windowListeners w)
  then w
  else setWindowListeners (windowListeners w ++ [(type, l)]) w.

(** The function [onWindow] returns; removing an absent listener does nothing. *)
Definition offWindow (type : string) (l : WindowListener) (w : Window) : Window :=
  setWindowListeners
    (filter (fun x => negb (sameWindowListener (type, l) x)) (windowListeners w)) w.

(** Modelled from the spec: [defineEventHandlers] and [cleanupEventHandlers]
    of [../event-handlers/]; only their installed/removed status is kept. *)
Definition defineEventHandlers (w : Window) : Window :=
  setEventHandlersDefined true w.

Definition cleanupEventHandlers (w : Window) : Window :=
  setEventHandlersDefined false w.

(** ** The parsers table (lines 28-79) *)

Section Parsers.
Context `{Imports}.

(** [data: (value) => (value === null ? value : string().optional().parse(value))] *)
Definition clipboard_data : Parser := fun value =>
  match value with
  | JNull => Ok value
  | _ => optional parse_string value
  end.

(** [button_id] of [popup_closed]. *)
Definition popup_button_id : Parser := fun value =>
  if nullish value then Ok JUndefined else parse_string value.

(** [parsers.popup_closed.parse]: [json({...}).parse(value ?? {})]. *)
Definition popup_closed : Parser := fun value =>
  json [("button_id", popup_button_id)]
       (if nullish value then JObj [] else value).

(** [theme_params]: every entry of the record goes through
    [rgb().optional()], entries are written to a fresh object in order. *)
Definition theme_params : Parser := fun value =>
  (record <- toRecord value ;;
   acc <- fold_left
            (fun (acc : result (list (string * JSValue))) (kv : string * JSValue) =>
               acc' <- acc ;;
               v <- optional parse_rgb (snd kv) ;;
               Ok (setProp acc' (fst kv) v))
            record (Ok []) ;;
   Ok (JObj acc))%js.

(** [width] of [viewport_changed]: reads [window.innerWidth] when the field
    is [null] or [undefined]. *)
Definition viewport_width (w : Window) : Parser := fun value =>
  if nullish value then Ok (JNum (innerWidth w)) else parse_number value.

Definition parsers (w : Window) : list (string * Parser) :=
  [ ("clipboard_text_received",
      json [("req_id", parse_string); ("data", clipboard_data)]);
    ("custom_method_invoked",
      json [("req_id", parse_string);
            ("result", fun value => Ok value);
            ("error", optional parse_string)]);
    ("invoice_closed", json [("slug", parse_string); ("status", parse_string)]);
    ("phone_requested", json [("status", parse_string)]);
    ("popup_closed", popup_closed);
    ("qr_text_received", json [("data", optional parse_string)]);
    ("theme_changed", json [("theme_params", theme_params)]);
    ("viewport_changed",
      json [("height", parse_number);
            ("width", viewport_width w);
            ("is_state_stable", parse_boolean);
            ("is_expanded", parse_boolean)]);
    ("write_access_requested", json [("status", parse_string)]) ].

(** Own properties of the [parsers] object literal. *)
Fixpoint ownProperty (table : list (string * Parser)) (key : string)
  : option Parser :=
  match table with
  | [] => None
  | (k, p) :: rest => if String.eqb k key then Some p else ownProperty rest key
  end.

(** [parsers] is a plain object literal, so [parsers[eventType]] also finds
    what it inherits from [Object.prototype]; none of these values has a
    [parse] method. *)
Definition objectPrototypeProperties : list string :=
  [ "constructor"; "hasOwnProperty"; "isPrototypeOf"; "propertyIsEnumerable";
    "toLocaleString"; "toString"; "valueOf"; "__proto__";
    "__defineGetter__"; "__defineSetter__";
    "__lookupGetter__"; "__lookupSetter__" ].

Inductive Lookup : Type :=
| Registered (p : Parser)
| Inherited
| Absent.

(** [parsers[eventType as keyof typeof parsers]] (line 142). *)
Definition lookupParser (w : Window) (key : string) : Lookup :=
  match ownProperty (parsers w) key with
  | Some p => Registered p
  | None =>
      if existsb (String.eqb key) objectPrototypeProperties
      then Inherited
      else Absent
  end.

End Parsers.

(** ** The generic event emitter *)

(** Modelled from the spec: the class [EventEmitter] of
    [@/events/event-emitter/EventEmitter.js] (section 4.3).  Registrations are
    kept in registration order; [on] does not deduplicate; [off] removes the
    first matching registration and does nothing when there is none; [emit]
    calls the listeners of the name in registration order and hands every
    catch-all listener the event name with its arguments; [count] is the
    total over both streams; [clear] removes everything.  The specification
    does not order the two streams within one [emit]; here the listeners of
    the name run first.

    [L] is the type of listeners of named events, [S] the type of catch-all
    listeners, and [W] the world that calling a listener acts on. *)
Module EventEmitter.
Section Generic.
Context {L S : Type}.
Variable same : L -> L -> bool.

Record t : Type := {
  listeners : list (string * L);
  subscribeListeners : list S;
}.

Definition create : t := {| listeners := []; subscribeListeners := [] |}.

Definition on (event : string) (listener : L) (e : t) : t :=
  {| listeners := listeners e ++ [(event, listener)];
     subscribeListeners := subscribeListeners e |}.

Fixpoint removeFirst (event : string) (listener : L) (l : list (string * L))
  : list (string * L) :=
  match l with
  | [] => []
  | (n, f) :: rest =>
      if String.eqb n event && same f listener
      then rest
      else (n, f) :: removeFirst event listener rest
  end.

Definition off (event : string) (listener : L) (e : t) : t :=
  {| listeners := removeFirst event listener (listeners e);
     subscribeListeners := subscribeListeners e |}.

Definition subscribe (listener : S) (e : t) : t :=
  {| listeners := listeners e;
     subscribeListeners := subscribeListeners e ++ [listener] |}.

Definition clear (_ : t) : t := create.

Definition count (e : t) : nat :=
  List.length (listeners e) + List.length (subscribeListeners e).

(** The listeners registered for [event], oldest first. *)
Definition listenersOf (event : string) (e : t) : list L :=
  map snd (filter (fun r => String.eqb (fst r) event) (listeners e)).

Definition emit {W : Type}
    (call : L -> list JSValue -> W -> W)
    (callSubscriber : S -> string -> list JSValue -> W -> W)
    (e : t) (event : string) (args : list JSValue) (w : W) : W :=
  let w' := fold_left (fun w l => call l args w) (listenersOf event e) w in
  fold_left (fun w s => callSubscriber s event args w) (subscribeListeners e) w'.

End Generic.
Arguments t : clear implicits.
End EventEmitter.

(** ** The emitter's state *)

(** The only catch-all listener of [mainEmitter]: the arrow function of
    lines 100-102, which re-emits on [subEmitter]. *)
Inductive Bridge : Type := TheBridge.

(** One [logger.error] call (lines 148-152). *)
Record LogEntry : Type := {
  logText : string;
  logMessage : MiniAppsMessage;
  logCause : Exception;
}.

(** Listeners supplied by the caller are opaque functions; they are
    identified by a number (reference identity) and a call is recorded
    together with the arguments it received.  A listener neither throws nor
    changes the registrations while it runs.  [emitted] records the calls of
    [mainEmitter.emit]. *)
Record State : Type := {
  window : Window;
  mainEmitter : EventEmitter.t nat Bridge;
  subEmitter : EventEmitter.t nat Empty_set;
  emitted : list (string * list JSValue);
  calls : list (nat * list JSValue);
  errors : list LogEntry;
}.

Definition setWindow (w : Window) (st : State) : State :=
  {| window := w; mainEmitter := mainEmitter st; subEmitter := subEmitter st;
     emitted := emitted st; calls := calls st; errors := errors st |}.

Definition setMainEmitter (e : EventEmitter.t nat Bridge) (st : State) : State :=
  {| window := window st; mainEmitter := e; subEmitter := subEmitter st;
     emitted := emitted st; calls := calls st; errors := errors st |}.

Definition setSubEmitter (e : EventEmitter.t nat Empty_set) (st : State) : State :=
  {| window := window st; mainEmitter := mainEmitter st; subEmitter := e;
     emitted := emitted st; calls := calls st; errors := errors st |}.

Definition recordEmit (event : string) (args : list JSValue) (st : State) : State :=
  {| window := window st; mainEmitter := mainEmitter st;
     subEmitter := subEmitter st;
     emitted := emitted st ++ [(event, args)];
     calls := calls st; errors := errors st |}.

(** Calling the caller's listener [l] with [args]. *)
Definition callListener (l : nat) (args : list JSValue) (st : State) : State :=
  {| window := window st; mainEmitter := mainEmitter st;
     subEmitter := subEmitter st; emitted := emitted st;
     calls := calls st ++ [(l, args)]; errors := errors st |}.

(** [logger.error(text, message, cause)]. *)
Definition loggerError (text : string) (message : MiniAppsMessage)
    (cause : Exception) (st : State) : State :=
  {| window := window st; mainEmitter := mainEmitter st;
     subEmitter := subEmitter st; emitted := emitted st; calls := calls st;
     errors := errors st ++
       [{| logText := text; logMessage := message; logCause := cause |}] |}.

(** [subEmitter.emit(event, ...args)]; nothing ever subscribes to the
    catch-all stream of [subEmitter]. *)
Definition subEmit (event : string) (args : list JSValue) (st : State) : State :=
  EventEmitter.emit callListener
    (fun (s : Empty_set) _ _ (st' : State) => match s with end)
    (subEmitter st) event args st.

(** Lines 100-102:
    [subEmitter.emit('event', { name: event.event, payload: event.args[0] })]. *)
Definition callBridge (_ : Bridge) (event : string) (args : list JSValue)
    (st : State) : State :=
  subEmit "event"
    [JObj [("name", JStr event); ("payload", nth 0 args JUndefined)]] st.

(** [mainEmitter.emit(event, ...args)]. *)
Definition mainEmit (event : string) (args : list JSValue) (st : State) : State :=
  EventEmitter.emit callListener callBridge
    (mainEmitter st) event args (recordEmit event args st).

(** ** createMiniAppsEventEmitter (lines 84-173) *)

Inductive WindowEvent : Type :=
| ResizeEvent
| MessageEvent (source : option nat) (data : JSValue).

Definition eventName (ev : WindowEvent) : string :=
  match ev with
  | ResizeEvent => "resize"
  | MessageEvent _ _ => "message"
  end.

(** The resize listener (lines 116-123). *)
Definition viewportPayload (w : Window) : JSValue :=
  JObj [ ("width", JNum (innerWidth w));
         ("height", JNum (innerHeight w));
         ("is_state_stable", JBool true);
         ("is_expanded", JBool true) ].

Definition onResize (st : State) : State :=
  mainEmit "viewport_changed" [viewportPayload (window st)] st.

Definition quote : string := String "034"%char EmptyString.

(** The template literal of line 149. *)
Definition diagnostic (eventType : string) : string :=
  ("An error occurred processing the " ++ quote ++ eventType ++ quote ++
   " event from the Telegram application. Please, file an issue here: https://github.com/Telegram-Mini-Apps/tma.js/issues/new/choose")%string.

(** [event.source !== window.parent] (line 128). *)
Definition fromParent (source : option nat) (w : Window) : bool :=
  match source with
  | Some frame => Nat.eqb frame (parent w)
  | None => false
  end.

(** [...(data ? [eventType, data] : [eventType])] without the event name. *)
Definition emitArguments (data : JSValue) : list JSValue :=
  if truthy data then [data] else [].

Section Dispatcher.
Context `{Imports}.

(** Line 145: [parser ? parser.parse(eventData) : eventData].  A value
    inherited from [Object.prototype] is truthy and has no [parse] method, so
    the call throws a [TypeError]. *)
Definition decodePayload (w : Window) (message : MiniAppsMessage) : result JSValue :=
  match lookupParser w (eventType message) with
  | Registered p => p (eventData message)
  | Inherited => Throw (NotAFunction "parser.parse")
  | Absent => Ok (eventData message)
  end.

(** The body of the [try] block (lines 145-146). *)
Definition tryEmit (message : MiniAppsMessage) (st : State) : result State :=
  (data <- decodePayload (window st) message ;;
   Ok (mainEmit (eventType message) (emitArguments data) st))%js.

(** The message listener (lines 126-154). *)
Definition onMessage (source : option nat) (data : JSValue) (st : State) : State :=
  if negb (fromParent source (window st)) then st
  else
    match parseMessage data with
    | Throw _ => st
    | Ok message =>
        match tryEmit message st with
        | Ok st' => st'
        | Throw cause =>
            loggerError (diagnostic (eventType message)) message cause st
        end
    end.

(** Calling one of the two window listeners with an event.  The message
    listener reads [event.source], which a resize event does not have. *)
Definition callWindowListener (l : WindowListener) (ev : WindowEvent)
    (st : State) : State :=
  match l with
  | OnResize => onResize st
  | OnMessage =>
      match ev with
      | MessageEvent source data => onMessage source data st
      | ResizeEvent => st
      end
  end.

(** The browser delivering [ev] to the listeners registered for its type. *)
Definition dispatchEvent (ev : WindowEvent) (st : State) : State :=
  fold_left (fun st l => callWindowListener l ev st)
    (map snd (filter (fun r => String.eqb (fst r) (eventName ev))
                     (windowListeners (window st))))
    st.

(** The window is resized to [width] x [height] and the resize event fires. *)
Definition resizeTo (width height : float) (st : State) : State :=
  dispatchEvent ResizeEvent (setWindow (setViewport width height (window st)) st).

End Dispatcher.

(** Modelled from the spec: [createCleanup] of [@/misc/createCleanup.js]; the
    returned function runs the given cleanups in order. *)
Definition createCleanup (fns : list (State -> State)) : State -> State :=
  fun st => fold_left (fun st fn => fn st) fns st.

Definition onWindowIn (type : string) (l : WindowListener) (st : State) : State :=
  setWindow (onWindow type l (window st)) st.

(** The cleanup list of lines 108-158, in the order it is written. *)
Definition dispose : State -> State :=
  createCleanup
    [ (fun st => setWindow (cleanupEventHandlers (window st)) st);
      (fun st => setWindow (offWindow "resize" OnResize (window st)) st);
      (fun st => setWindow (offWindow "message" OnMessage (window st)) st);
      (fun st => setSubEmitter (EventEmitter.clear (subEmitter st)) st);
      (fun st => setMainEmitter (EventEmitter.clear (mainEmitter st)) st) ].

(** The state right after [createMiniAppsEventEmitter()] returned, in a page
    whose window is [w]. *)
Definition createMiniAppsEventEmitter (w : Window) : State :=
  let subEmitter := EventEmitter.create in
  let mainEmitter := EventEmitter.subscribe TheBridge EventEmitter.create in
  let w := defineEventHandlers w in
  let w := onWindow "resize" OnResize w in
  let w := onWindow "message" OnMessage w in
  {| window := w; mainEmitter := mainEmitter; subEmitter := subEmitter;
     emitted := []; calls := []; errors := [] |}.

(** The emitter object returned to the caller (lines 160-172). *)
Module MiniAppsEventEmitter.

(** [on: mainEmitter.on.bind(mainEmitter)] *)
Definition on (event : string) (listener : nat) (st : State) : State :=
  setMainEmitter (EventEmitter.on event listener (mainEmitter st)) st.

(** [off: mainEmitter.on.bind(mainEmitter)] *)
Definition off (event : string) (listener : nat) (st : State) : State :=
  setMainEmitter (EventEmitter.on event listener (mainEmitter st)) st.

(** [subscribe(listener) { return subEmitter.on('event', listener); }] *)
Definition subscribe (listener : nat) (st : State) : State :=
  setSubEmitter (EventEmitter.on "event" listener (subEmitter st)) st.

(** [unsubscribe(listener) { subEmitter.off('event', listener); }] *)
Definition unsubscribe (listener : nat) (st : State) : State :=
  setSubEmitter (EventEmitter.off Nat.eqb "event" listener (subEmitter st)) st.

(** [get count() { return mainEmitter.count + subEmitter.count; }] *)
Definition count (st : State) : nat :=
  EventEmitter.count (mainEmitter st) + EventEmitter.count (subEmitter st).

End MiniAppsEventEmitter.

(** ** A page and an instance of the imports to run the model on *)

(** A decoder of envelopes that arrive as structured objects with the keys
    [eventType] and [eventData]; the payload "defaults to an empty object when
    absent". *)
Definition parseStructuredMessage (raw : JSValue) : result MiniAppsMessage :=
  match raw with
  | JObj fields =>
      match prop fields "eventType" with
      | JStr type =>
          Ok {| eventType := type;
                eventData := match prop fields "eventData" with
                             | JUndefined => JObj []
                             | data => data
                             end |}
      | _ => Throw (ValidationError "string")
      end
  | _ => Throw (ValidationError "json")
  end.

(** No coercion at all, envelopes as structured objects. *)
Definition strictImports : Imports :=
  {| coerceString := fun _ => None;
     coerceNumber := fun _ => None;
     coerceBoolean := fun _ => None;
     coerceRGB := fun v => match v with JStr s => Some s | _ => None end;
     parseMessage := parseStructuredMessage |}.

(** A 375 x 667 page embedded in frame 1. *)
Definition page : Window :=
  {| innerWidth := 375%float; innerHeight := 667%float; parent := 1;
     windowListeners := []; eventHandlersDefined := false |}.

Definition envelope (type : string) (data : JSValue) : JSValue :=
  JObj [("eventType", JStr type); ("eventData", data)].

(** ** Vocabulary of the properties *)

Definition addCalls (cs : list (nat * list JSValue)) (st : State) : State :=
  {| window := window st; mainEmitter := mainEmitter st;
     subEmitter := subEmitter st; emitted := emitted st;
     calls := calls st ++ cs; errors := errors st |}.

(** The calls a [subEmitter.emit(event, ...args)] makes. *)
Definition deliveries (e : EventEmitter.t nat Empty_set) (event : string)
    (args : list JSValue) : list (nat * list JSValue) :=
  map (fun l => (l, args)) (EventEmitter.listenersOf event e).

(** What the bridge hands to the catch-all listeners. *)
Definition bridged (event : string) (args : list JSValue) : list JSValue :=
  [JObj [("name", JStr event); ("payload", nth 0 args JUndefined)]].

Definition wanted : list (string * WindowListener) :=
  [("resize", OnResize); ("message", OnMessage)].

(** The dispatcher's two window listeners are installed. *)
Definition attached (st : State) : Prop :=
  windowListeners (window st) = wanted.

(** What the page and the host can do with a created emitter, short of
    disposing it. *)
Inductive Action : Type :=
| CallOn (event : string) (listener : nat)
| CallOff (event : string) (listener : nat)
| CallSubscribe (listener : nat)
| CallUnsubscribe (listener : nat)
| Deliver (ev : WindowEvent)
| ResizeWindow (width height : float).

Definition perform `{Imports} (st : State) (a : Action) : State :=
  match a with
  | CallOn event l => MiniAppsEventEmitter.on event l st
  | CallOff event l => MiniAppsEventEmitter.off event l st
  | CallSubscribe l => MiniAppsEventEmitter.subscribe l st
  | CallUnsubscribe l => MiniAppsEventEmitter.unsubscribe l st
  | Deliver ev => dispatchEvent ev st
  | ResizeWindow width height => resizeTo width height st
  end.

Definition run `{Imports} (actions : list Action) (st : State) : State :=
  fold_left perform actions st.

(** Registrations made by the caller: named ones live in [mainEmitter],
    catch-all ones are the ['event'] listeners of [subEmitter]. *)
Definition registrations (st : State) : nat :=
  List.length (EventEmitter.listeners (mainEmitter st))
  + List.length (EventEmitter.listeners (subEmitter st)).

(** No window listener touches the registrations or the window. *)
Definition sameWiring (st st' : State) : Prop :=
  window st' = window st
  /\ mainEmitter st' = mainEmitter st
  /\ subEmitter st' = subEmitter st.

(** The states differ at most in what was logged before: [a] in the first,
    [b] in the second, followed by the same entries. *)
Definition sameUpToLog (a b : list LogEntry) (s1 s2 : State) : Prop :=
  window s1 = window s2
  /\ mainEmitter s1 = mainEmitter s2
  /\ subEmitter s1 = subEmitter s2
  /\ emitted s1 = emitted s2
  /\ calls s1 = calls s2
  /\ exists tail, errors s1 = a ++ tail /\ errors s2 = b ++ tail.

(** An instance in which [string()] turns a number into text, to set against
    [strictImports]. *)
Definition printingImports : Imports :=
  {| coerceString := fun v => match v with JNum _ => Some "5" | _ => None end;
     coerceNumber := fun _ => None;
     coerceBoolean := fun _ => None;
     coerceRGB := fun _ => None;
     parseMessage := parseStructuredMessage |}.

(** What one window message adds to the record of emissions, read off the
    message listener: nothing unless the message comes from the parent frame,
    decodes to an envelope and passes line 145; then one emission. *)
Definition emissionsOf `{Imports} (w : Window) (source : option nat)
    (data : JSValue) : list (string * list JSValue) :=
  if fromParent source w then
    match parseMessage data with
    | Ok message =>
        match decodePayload w message with
        | Ok payload => [(eventType message, emitArguments payload)]
        | Throw _ => []
        end
    | Throw _ => []
    end
  else [].

(** Delivering window messages one after the other. *)
Definition deliveries_of (msgs : list (option nat * JSValue)) : list Action :=
  map (fun m => Deliver (MessageEvent (fst m) (snd m))) msgs.

(** The reducer of [theme_params] (lines 62-65). *)
Definition themeStep `{Imports} (acc : result (list (string * JSValue)))
    (kv : string * JSValue) : result (list (string * JSValue)) :=
  (acc' <- acc ;;
   v <- optional parse_rgb (snd kv) ;;
   Ok (setProp acc' (fst kv) v))%js.

(** * Properties *)

(** ** What an emission does to the state *)

Lemma addCalls_nil (st : State) : addCalls [] st = st.
Proof. destruct st; unfold addCalls; simpl; now rewrite app_nil_r. Qed.

Lemma addCalls_addCalls (a b : list (nat * list JSValue)) (st : State) :
  addCalls b (addCalls a st) = addCalls (a ++ b) st.
Proof. unfold addCalls; simpl; now rewrite app_assoc. Qed.

Lemma fold_callListener (args : list JSValue) (ls : list nat) (st : State) :
  fold_left (fun st l => callListener l args st) ls st
  = addCalls (map (fun l => (l, args)) ls) st.
Proof.
  revert st; induction ls as [|l ls IH]; intro st; simpl.
  - now rewrite addCalls_nil.
  - rewrite IH. change (callListener l args st) with (addCalls [(l, args)] st).
    now rewrite addCalls_addCalls.
Qed.

Lemma no_subscriber_of_subEmitter (l : list Empty_set) : l = [].
Proof. destruct l as [|[] ?]; reflexivity. Qed.

Lemma subEmit_spec (event : string) (args : list JSValue) (st : State) :
  subEmit event args st = addCalls (deliveries (subEmitter st) event args) st.
Proof.
  unfold subEmit, EventEmitter.emit.
  rewrite (no_subscriber_of_subEmitter (EventEmitter.subscribeListeners _)).
  simpl. apply fold_callListener.
Qed.

Lemma fold_callBridge (event : string) (args : list JSValue)
    (bs : list Bridge) (st : State) :
  fold_left (fun st b => callBridge b event args st) bs st
  = addCalls
      (flat_map (fun _ => deliveries (subEmitter st) "event" (bridged event args)) bs)
      st.
Proof.
  revert st; induction bs as [|b bs IH]; intro st; simpl.
  - now rewrite addCalls_nil.
  - rewrite IH. unfold callBridge. rewrite subEmit_spec.
    now rewrite addCalls_addCalls.
Qed.

(** [mainEmitter.emit] records the emission, calls the listeners of the event
    in registration order and then, through the bridge, the catch-all
    listeners; nothing else changes. *)
Lemma mainEmit_spec (event : string) (args : list JSValue) (st : State) :
  mainEmit event args st
  = addCalls
      (map (fun l => (l, args)) (EventEmitter.listenersOf event (mainEmitter st))
       ++ flat_map
            (fun _ => deliveries (subEmitter st) "event" (bridged event args))
            (EventEmitter.subscribeListeners (mainEmitter st)))
      (recordEmit event args st).
Proof.
  unfold mainEmit, EventEmitter.emit.
  rewrite fold_callListener, fold_callBridge.
  now rewrite addCalls_addCalls.
Qed.

Lemma emitted_mainEmit (event : string) (args : list JSValue) (st : State) :
  emitted (mainEmit event args st) = emitted st ++ [(event, args)].
Proof. now rewrite mainEmit_spec. Qed.

Lemma errors_mainEmit (event : string) (args : list JSValue) (st : State) :
  errors (mainEmit event args st) = errors st.
Proof. now rewrite mainEmit_spec. Qed.

Lemma window_mainEmit (event : string) (args : list JSValue) (st : State) :
  window (mainEmit event args st) = window st.
Proof. now rewrite mainEmit_spec. Qed.

Lemma mainEmitter_mainEmit (event : string) (args : list JSValue) (st : State) :
  mainEmitter (mainEmit event args st) = mainEmitter st.
Proof. now rewrite mainEmit_spec. Qed.

Lemma subEmitter_mainEmit (event : string) (args : list JSValue) (st : State) :
  subEmitter (mainEmit event args st) = subEmitter st.
Proof. now rewrite mainEmit_spec. Qed.

(** ** The modelled [EventEmitter.off] *)

Lemma removeFirst_absent {L : Type} (same : L -> L -> bool) (event : string)
    (listener : L) (l : list (string * L)) :
  (forall r, In r l -> String.eqb (fst r) event && same (snd r) listener = false) ->
  EventEmitter.removeFirst same event listener l = l.
Proof.
  induction l as [|[n f] l IH]; intro Hno; simpl; [reflexivity|].
  pose proof (Hno (n, f) (or_introl eq_refl)) as Hhead; simpl in Hhead.
  rewrite Hhead. f_equal. apply IH. intros r Hr. apply Hno. now right.
Qed.

Lemma removeFirst_first {L : Type} (same : L -> L -> bool) (event : string)
    (listener : L) (before after : list (string * L)) (f : L) :
  (forall r, In r before ->
             String.eqb (fst r) event && same (snd r) listener = false) ->
  same f listener = true ->
  EventEmitter.removeFirst same event listener (before ++ (event, f) :: after)
  = before ++ after.
Proof.
  intros Hno Hsame. induction before as [|[n g] before IH]; simpl.
  - now rewrite String.eqb_refl, Hsame.
  - pose proof (Hno (n, g) (or_introl eq_refl)) as Hhead; simpl in Hhead.
    rewrite Hhead. f_equal. apply IH. intros r Hr. apply Hno. now right.
Qed.

(** ** Histories of a created emitter *)

Lemma fold_left_invariant {A : Type} (P : State -> Prop)
    (f : State -> A -> State) (l : list A) :
  (forall s x, P s -> P (f s x)) -> forall s, P s -> P (fold_left f l s).
Proof.
  intro Hstep. induction l as [|x l IH]; intros s Hs; simpl; auto.
Qed.

Section Frames.
Context `{Imports}.

Lemma onMessage_cases (source : option nat) (data : JSValue) (st : State) :
  onMessage source data st = st
  \/ (exists event args, onMessage source data st = mainEmit event args st)
  \/ (exists text message cause,
        onMessage source data st = loggerError text message cause st).
Proof.
  unfold onMessage.
  destruct (negb (fromParent source (window st))); [now left|].
  destruct (parseMessage data) as [message|]; [|now left].
  unfold tryEmit.
  destruct (decodePayload (window st) message) as [payload|cause]; simpl.
  - right; left; eauto.
  - right; right; eauto.
Qed.

Lemma callWindowListener_wiring (l : WindowListener) (ev : WindowEvent)
    (st0 st : State) :
  sameWiring st0 st -> sameWiring st0 (callWindowListener l ev st).
Proof.
  intros (Hw & Hm & Hs).
  assert (Hemit : forall event args, sameWiring st0 (mainEmit event args st)).
  { intros event args. unfold sameWiring.
    now rewrite window_mainEmit, mainEmitter_mainEmit, subEmitter_mainEmit. }
  destruct l; simpl; [apply Hemit|].
  destruct ev as [|source data]; [now repeat split|].
  destruct (onMessage_cases source data st)
    as [-> | [(event & args & ->) | (text & message & cause & ->)]].
  - now repeat split.
  - apply Hemit.
  - now repeat split.
Qed.

Lemma dispatchEvent_wiring (ev : WindowEvent) (st : State) :
  sameWiring st (dispatchEvent ev st).
Proof.
  unfold dispatchEvent.
  apply (fold_left_invariant (sameWiring st)).
  - intros s l. apply callWindowListener_wiring.
  - now repeat split.
Qed.

Lemma resizeTo_emitters (width height : float) (st : State) :
  mainEmitter (resizeTo width height st) = mainEmitter st
  /\ subEmitter (resizeTo width height st) = subEmitter st
  /\ windowListeners (window (resizeTo width height st))
     = windowListeners (window st).
Proof.
  unfold resizeTo.
  destruct (dispatchEvent_wiring ResizeEvent
              (setWindow (setViewport width height (window st)) st))
    as (Hw & Hm & Hs).
  rewrite Hw, Hm, Hs. now repeat split.
Qed.

Lemma perform_bridge (st : State) (a : Action) :
  EventEmitter.subscribeListeners (mainEmitter (perform st a))
  = EventEmitter.subscribeListeners (mainEmitter st).
Proof.
  destruct a; simpl; try reflexivity.
  - destruct (dispatchEvent_wiring ev st) as (_ & -> & _). reflexivity.
  - destruct (resizeTo_emitters width height st) as (-> & _). reflexivity.
Qed.

Lemma run_bridge (actions : list Action) (st : State) :
  EventEmitter.subscribeListeners (mainEmitter (run actions st))
  = EventEmitter.subscribeListeners (mainEmitter st).
Proof.
  unfold run.
  apply (fold_left_invariant
           (fun s => EventEmitter.subscribeListeners (mainEmitter s)
                     = EventEmitter.subscribeListeners (mainEmitter st))).
  - intros s a Hs. now rewrite perform_bridge.
  - reflexivity.
Qed.

Lemma perform_attached (st : State) (a : Action) :
  attached st -> attached (perform st a).
Proof.
  unfold attached. destruct a; simpl; auto.
  - destruct (dispatchEvent_wiring ev st) as (-> & _). auto.
  - destruct (resizeTo_emitters width height st) as (_ & _ & ->). auto.
Qed.

Lemma run_attached (actions : list Action) (st : State) :
  attached st -> attached (run actions st).
Proof.
  intro Hst. unfold run.
  apply (fold_left_invariant attached); auto.
  intros s a. apply perform_attached.
Qed.

End Frames.

Lemma create_attached (w : Window) :
  windowListeners w = [] -> attached (createMiniAppsEventEmitter w).
Proof.
  intro Hw. unfold attached, createMiniAppsEventEmitter, onWindow.
  simpl. rewrite Hw. reflexivity.
Qed.

Lemma count_bridged (st : State) :
  EventEmitter.subscribeListeners (mainEmitter st) = [TheBridge] ->
  MiniAppsEventEmitter.count st = 1 + registrations st.
Proof.
  intro Hb. unfold MiniAppsEventEmitter.count, registrations, EventEmitter.count.
  rewrite Hb, (no_subscriber_of_subEmitter (EventEmitter.subscribeListeners _)).
  simpl. lia.
Qed.

(** ** The emitter object: [on], [off], [count] *)

Lemma off_is_on (event : string) (listener : nat) (st : State) :
  MiniAppsEventEmitter.off event listener st
  = MiniAppsEventEmitter.on event listener st.
Proof. reflexivity. Qed.

(** C1 (the code departs from the claim).  The [off] property of the returned
    emitter is bound to [mainEmitter.on].  On a fresh emitter in [page],
    [on("viewport_changed", 7)] followed by [off("viewport_changed", 7)]
    leaves two registrations of listener 7 and raises [count] from 2 to 3; the
    next resize calls listener 7 twice.  [EventEmitter.off] itself, applied at
    the same point, would have left no registration.  [off] for a listener
    that was never registered registers it. *)
Theorem off_registers_the_listener_again :
  let payload := JObj [ ("width", JNum 800%float); ("height", JNum 600%float);
                        ("is_state_stable", JBool true);
                        ("is_expanded", JBool true) ] in
  let st0 := createMiniAppsEventEmitter page in
  let st1 := MiniAppsEventEmitter.on "viewport_changed" 7 st0 in
  let st2 := MiniAppsEventEmitter.off "viewport_changed" 7 st1 in
  EventEmitter.listeners (mainEmitter st2)
    = [("viewport_changed", 7); ("viewport_changed", 7)]
  /\ MiniAppsEventEmitter.count st1 = 2
  /\ MiniAppsEventEmitter.count st2 = 3
  /\ calls (@resizeTo strictImports 800%float 600%float st2)
     = [(7, [payload]); (7, [payload])]
  /\ EventEmitter.listeners
       (EventEmitter.off Nat.eqb "viewport_changed" 7 (mainEmitter st1)) = []
  /\ EventEmitter.listeners
       (mainEmitter (MiniAppsEventEmitter.off "popup_closed" 5 st0))
     = [("popup_closed", 5)].
Proof. cbv zeta. repeat split; reflexivity. Qed.

(** For every state, [off] adds a registration and raises [count] by one. *)
Lemma off_adds_a_registration (event : string) (listener : nat) (st : State) :
  EventEmitter.listeners (mainEmitter (MiniAppsEventEmitter.off event listener st))
    = EventEmitter.listeners (mainEmitter st) ++ [(event, listener)]
  /\ MiniAppsEventEmitter.count (MiniAppsEventEmitter.off event listener st)
     = S (MiniAppsEventEmitter.count st).
Proof.
  split; [reflexivity|].
  unfold MiniAppsEventEmitter.count, EventEmitter.count; simpl.
  rewrite length_app; simpl. lia.
Qed.

(** C5 as stated fails on a fresh emitter: the bridge of lines 100-102 is a
    catch-all registration of [mainEmitter], and [count] adds it in. *)
Lemma fresh_count_is_not_zero :
  MiniAppsEventEmitter.count (createMiniAppsEventEmitter page) = 1
  /\ registrations (createMiniAppsEventEmitter page) = 0
  /\ MiniAppsEventEmitter.count (createMiniAppsEventEmitter page) <> 0.
Proof. repeat split; try reflexivity. discriminate. Qed.

(** C5 (amended).  As long as the emitter is not disposed, [count] is one more
    than the number of registrations made by the caller, the extra one being
    the internal bridge; a fresh emitter has [count] 1; [on] and [subscribe]
    each raise [count] by exactly one. *)
Theorem count_is_registrations_plus_bridge `{Imports} :
  forall (w : Window) (actions : list Action),
    let st := run actions (createMiniAppsEventEmitter w) in
    MiniAppsEventEmitter.count (createMiniAppsEventEmitter w) = 1
    /\ MiniAppsEventEmitter.count st = 1 + registrations st
    /\ (forall event listener,
          MiniAppsEventEmitter.count (MiniAppsEventEmitter.on event listener st)
          = S (MiniAppsEventEmitter.count st))
    /\ (forall listener,
          MiniAppsEventEmitter.count (MiniAppsEventEmitter.subscribe listener st)
          = S (MiniAppsEventEmitter.count st)).
Proof.
  intros w actions st. repeat split.
  - apply count_bridged. subst st. now rewrite run_bridge.
  - intros event listener.
    unfold MiniAppsEventEmitter.count, EventEmitter.count; simpl.
    rewrite length_app; simpl. lia.
  - intro listener.
    unfold MiniAppsEventEmitter.count, EventEmitter.count; simpl.
    rewrite length_app; simpl. lia.
Qed.

(** ** Disposal *)

Lemma filter_twice {A : Type} (p q : A -> bool) (l : list A) :
  filter p (filter q (filter p (filter q l))) = filter p (filter q l).
Proof.
  induction l as [|a l IH]; simpl; [reflexivity|].
  destruct (q a) eqn:Hq; simpl; [|assumption].
  destruct (p a) eqn:Hp; simpl; [|assumption].
  rewrite Hq; simpl. rewrite Hp. now f_equal.
Qed.

(** C9.  Disposing twice is the same as disposing once: the second call
    returns normally and finds nothing left to remove, so the count (0 after
    the first call) and the window listeners are what the first call left. *)
Theorem dispose_twice (st : State) :
  dispose (dispose st) = dispose st
  /\ MiniAppsEventEmitter.count (dispose (dispose st))
     = MiniAppsEventEmitter.count (dispose st)
  /\ MiniAppsEventEmitter.count (dispose st) = 0
  /\ windowListeners (window (dispose (dispose st)))
     = windowListeners (window (dispose st)).
Proof.
  assert (Hidem : dispose (dispose st) = dispose st).
  { destruct st as [[iw ih p ls hd] m s e c er].
    unfold dispose, createCleanup, offWindow, cleanupEventHandlers,
      setWindow, setWindowListeners, setEventHandlersDefined,
      setSubEmitter, setMainEmitter; cbn -[filter sameWindowListener].
    now rewrite filter_twice. }
  rewrite Hidem. repeat split; reflexivity.
Qed.

(** After disposal no window event reaches the emitter any more. *)
Lemma disposed_is_silent `{Imports} (w : Window) (ev : WindowEvent) :
  windowListeners w = [] ->
  dispatchEvent ev (dispose (createMiniAppsEventEmitter w))
  = dispose (createMiniAppsEventEmitter w).
Proof.
  intro Hw. unfold dispatchEvent.
  replace (windowListeners (window (dispose (createMiniAppsEventEmitter w))))
    with (@nil (string * WindowListener)); [reflexivity|].
  unfold dispose, createCleanup, createMiniAppsEventEmitter, onWindow; simpl.
  rewrite Hw. reflexivity.
Qed.

(** ** The message listener *)

Lemma fromParent_true (st : State) :
  fromParent (Some (parent (window st))) (window st) = true.
Proof. apply Nat.eqb_refl. Qed.

Lemma fromParent_false (st : State) (source : option nat) :
  source <> Some (parent (window st)) -> fromParent source (window st) = false.
Proof.
  intro Hne. destruct source as [frame|]; simpl; [|reflexivity].
  apply Nat.eqb_neq. congruence.
Qed.

Lemma dispatch_message_attached `{Imports} (st : State) (source : option nat)
    (data : JSValue) :
  attached st ->
  dispatchEvent (MessageEvent source data) st = onMessage source data st.
Proof. intro Hst. unfold dispatchEvent. rewrite Hst. reflexivity. Qed.

Lemma dispatch_resize_attached `{Imports} (st : State) :
  attached st -> dispatchEvent ResizeEvent st = onResize st.
Proof. intro Hst. unfold dispatchEvent. rewrite Hst. reflexivity. Qed.

(** C3.  A message whose source is not the parent frame leaves the whole
    state as it was, whatever it carries: nothing is emitted, no listener is
    called, nothing is logged. *)
Theorem foreign_message_ignored `{Imports} (st : State) (source : option nat)
    (data : JSValue) :
  source <> Some (parent (window st)) ->
  attached st ->
  onMessage source data st = st
  /\ dispatchEvent (MessageEvent source data) st = st
  /\ emitted (dispatchEvent (MessageEvent source data) st) = emitted st
  /\ calls (dispatchEvent (MessageEvent source data) st) = calls st.
Proof.
  intros Hsource Hst.
  assert (Hcb : onMessage source data st = st).
  { unfold onMessage. now rewrite (fromParent_false st source Hsource). }
  rewrite (dispatch_message_attached st source data Hst), Hcb.
  now repeat split.
Qed.

Lemma fold_left_related {A : Type} (R : State -> State -> Prop)
    (f : State -> A -> State) (l : list A) :
  (forall s1 s2 x, R s1 s2 -> R (f s1 x) (f s2 x)) ->
  forall s1 s2, R s1 s2 -> R (fold_left f l s1) (fold_left f l s2).
Proof.
  intro Hstep. induction l as [|x l IH]; intros s1 s2 Hs; simpl; auto.
Qed.

Section LogFrame.
Context `{Imports}.
Variables a b : list LogEntry.

Lemma mainEmit_sameUpToLog (event : string) (args : list JSValue)
    (s1 s2 : State) :
  sameUpToLog a b s1 s2 ->
  sameUpToLog a b (mainEmit event args s1) (mainEmit event args s2).
Proof.
  intros (Hw & Hm & Hs & He & Hc & tail & H1 & H2).
  rewrite !mainEmit_spec. unfold sameUpToLog; simpl.
  rewrite Hw, Hm, Hs, He, Hc. repeat split. now exists tail.
Qed.

Lemma loggerError_sameUpToLog (text : string) (message : MiniAppsMessage)
    (cause : Exception) (s1 s2 : State) :
  sameUpToLog a b s1 s2 ->
  sameUpToLog a b (loggerError text message cause s1)
                  (loggerError text message cause s2).
Proof.
  intros (Hw & Hm & Hs & He & Hc & tail & H1 & H2).
  unfold sameUpToLog; simpl. repeat split; auto.
  exists (tail ++ [{| logText := text; logMessage := message;
                      logCause := cause |}]).
  now rewrite H1, H2, !app_assoc.
Qed.

Lemma onMessage_sameUpToLog (source : option nat) (data : JSValue)
    (s1 s2 : State) :
  sameUpToLog a b s1 s2 ->
  sameUpToLog a b (onMessage source data s1) (onMessage source data s2).
Proof.
  intro HR. pose proof HR as (Hw & _).
  unfold onMessage, tryEmit. rewrite Hw.
  destruct (negb (fromParent source (window s2))); [assumption|].
  destruct (parseMessage data) as [message|]; [|assumption].
  destruct (decodePayload (window s2) message) as [payload|cause]; simpl.
  - now apply mainEmit_sameUpToLog.
  - now apply loggerError_sameUpToLog.
Qed.

Lemma dispatchEvent_sameUpToLog (ev : WindowEvent) (s1 s2 : State) :
  sameUpToLog a b s1 s2 ->
  sameUpToLog a b (dispatchEvent ev s1) (dispatchEvent ev s2).
Proof.
  intro HR. pose proof HR as (Hw & _).
  unfold dispatchEvent. rewrite Hw.
  apply fold_left_related; [|assumption].
  intros t1 t2 l Ht. destruct l; simpl.
  - unfold onResize. pose proof Ht as (Hwt & _). rewrite Hwt.
    now apply mainEmit_sameUpToLog.
  - destruct ev; [assumption|]. now apply onMessage_sameUpToLog.
Qed.

End LogFrame.

Lemma foreign_message_ignored_witness :
  let st := createMiniAppsEventEmitter page in
  let data := envelope "viewport_changed"
                (JObj [ ("height", JNum 600%float); ("width", JNum 375%float);
                        ("is_state_stable", JBool true);
                        ("is_expanded", JBool true) ]) in
  Some 2 <> Some (parent (window st))
  /\ @dispatchEvent strictImports (MessageEvent (Some 2) data) st = st.
Proof.
  intros st data.
  assert (Hsource : Some 2 <> Some (parent (window st))) by discriminate.
  split; [exact Hsource|].
  exact (proj1 (proj2 (foreign_message_ignored (H := strictImports)
                         st (Some 2) data Hsource eq_refl))).
Defined.

Lemma lookupParser_registered `{Imports} (w : Window) (key : string) (p : Parser) :
  ownProperty (parsers w) key = Some p -> lookupParser w key = Registered p.
Proof. intro Hp. unfold lookupParser. now rewrite Hp. Qed.

Lemma lookupParser_absent `{Imports} (w : Window) (key : string) :
  ownProperty (parsers w) key = None ->
  ~ In key objectPrototypeProperties ->
  lookupParser w key = Absent.
Proof.
  intros Hp Hin. unfold lookupParser. rewrite Hp.
  destruct (existsb (String.eqb key) objectPrototypeProperties) eqn:Hex;
    [|reflexivity].
  apply existsb_exists in Hex. destruct Hex as (k & Hk & Heq).
  apply String.eqb_eq in Heq. subst k. contradiction.
Qed.

(** C4.  When the parser registered for the event type throws on the payload,
    the listener catches the exception and calls [logger.error] with a text
    that contains the event type, the decoded message and the cause.  Nothing
    is emitted and no listener is called; the listener returns normally, and
    every later window event is handled exactly as if the invalid message had
    never arrived, apart from the extra log entry. *)
Theorem invalid_payload_is_logged `{Imports} (st : State) (source : option nat)
    (data : JSValue) (message : MiniAppsMessage) (p : Parser)
    (cause : Exception) :
  source = Some (parent (window st)) ->
  parseMessage data = Ok message ->
  ownProperty (parsers (window st)) (eventType message) = Some p ->
  p (eventData message) = Throw cause ->
  let st' := onMessage source data st in
  let entry := {| logText := diagnostic (eventType message);
                  logMessage := message; logCause := cause |} in
  st' = loggerError (diagnostic (eventType message)) message cause st
  /\ emitted st' = emitted st
  /\ calls st' = calls st
  /\ errors st' = errors st ++ [entry]
  /\ (exists before after,
        logText entry = (before ++ eventType message ++ after)%string)
  /\ (forall ev,
        sameUpToLog (errors st ++ [entry]) (errors st)
          (dispatchEvent ev st') (dispatchEvent ev st)).
Proof.
  intros Hsource Hparse Hp Hthrow st' entry.
  assert (Hst' : st' = loggerError (diagnostic (eventType message)) message cause st).
  { subst st' source. unfold onMessage, tryEmit, decodePayload.
    rewrite fromParent_true, Hparse, (lookupParser_registered _ _ _ Hp), Hthrow.
    reflexivity. }
  rewrite Hst'. do 4 (split; [reflexivity|]). split.
  - exists ("An error occurred processing the " ++ quote)%string.
    eexists. unfold entry, diagnostic; simpl logText. reflexivity.
  - intro ev. apply dispatchEvent_sameUpToLog.
    unfold sameUpToLog; simpl. repeat split.
    exists []. now rewrite !app_nil_r.
Qed.

Lemma invalid_payload_is_logged_witness :
  let st := createMiniAppsEventEmitter page in
  let message := {| eventType := "viewport_changed";
                    eventData := JObj [("height", JStr "tall")] |} in
  let data := envelope "viewport_changed" (JObj [("height", JStr "tall")]) in
  let st' := @dispatchEvent strictImports (MessageEvent (Some 1) data) st in
  emitted st' = []
  /\ calls st' = []
  /\ errors st'
     = [{| logText := diagnostic "viewport_changed"; logMessage := message;
           logCause := FieldError "height" (ValidationError "number") |}].
Proof.
  intros st message data st'.
  destruct (invalid_payload_is_logged (H := strictImports)
              st (Some 1) data message
              (json [ ("height", parse_number);
                      ("width", viewport_width (window st));
                      ("is_state_stable", parse_boolean);
                      ("is_expanded", parse_boolean) ])
              (FieldError "height" (ValidationError "number"))
              eq_refl eq_refl eq_refl eq_refl)
    as (_ & Hemitted & Hcalls & Herrors & _).
  split; [exact Hemitted | split; [exact Hcalls | exact Herrors]].
Defined.

(** C2 as stated fails on falsy payloads.  A message from the parent frame with
    the unregistered event type [new_event] and payload [0] is emitted
    without any payload: line 146 passes [data] on only when it is truthy. *)
Lemma falsy_payload_is_dropped :
  let st := createMiniAppsEventEmitter page in
  let data := envelope "new_event" (JNum 0%float) in
  let st' := @dispatchEvent strictImports (MessageEvent (Some 1) data) st in
  fromParent (Some 1) (window st) = true
  /\ @parseMessage strictImports data
     = Ok {| eventType := "new_event"; eventData := JNum 0%float |}
  /\ @lookupParser strictImports (window st) "new_event" = Absent
  /\ emitted st' = [("new_event", [])]
  /\ emitted st' <> [("new_event", [JNum 0%float])].
Proof.
  cbv zeta. repeat split; try reflexivity.
  intro Heq. vm_compute in Heq. discriminate Heq.
Qed.

(** C2 (amended).  For an event type that names no property of [parsers]
    (neither an own one nor one inherited from [Object.prototype]), the
    listener emits the event with the raw [eventData], unchanged, when that
    value is truthy, and without a payload when it is falsy; nothing is
    logged. *)
Theorem unregistered_payload_forwarded_if_truthy `{Imports} (st : State)
    (source : option nat) (data : JSValue) (message : MiniAppsMessage) :
  source = Some (parent (window st)) ->
  parseMessage data = Ok message ->
  ownProperty (parsers (window st)) (eventType message) = None ->
  ~ In (eventType message) objectPrototypeProperties ->
  let args := if truthy (eventData message) then [eventData message] else [] in
  onMessage source data st = mainEmit (eventType message) args st
  /\ emitted (onMessage source data st)
     = emitted st ++ [(eventType message, args)]
  /\ errors (onMessage source data st) = errors st.
Proof.
  intros Hsource Hparse Hown Hinherited args.
  assert (Hcb : onMessage source data st = mainEmit (eventType message) args st).
  { subst source. unfold onMessage, tryEmit, decodePayload.
    rewrite fromParent_true, Hparse, (lookupParser_absent _ _ Hown Hinherited).
    reflexivity. }
  rewrite Hcb, emitted_mainEmit, errors_mainEmit. now repeat split.
Qed.

Lemma unregistered_payload_forwarded_if_truthy_witness :
  let st := createMiniAppsEventEmitter page in
  let payload := JObj [("level", JNum 3%float)] in
  emitted (@onMessage strictImports (Some 1) (envelope "new_event" payload) st)
  = [("new_event", [payload])].
Proof.
  intros st payload.
  refine (proj1 (proj2 (unregistered_payload_forwarded_if_truthy
                          (H := strictImports) st (Some 1)
                          (envelope "new_event" payload)
                          {| eventType := "new_event"; eventData := payload |}
                          eq_refl eq_refl eq_refl _))).
  simpl. intuition discriminate.
Defined.

(** ** Payload decoding of particular events *)

Lemma registered_message_emitted `{Imports} (st : State) (source : option nat)
    (data : JSValue) (message : MiniAppsMessage) (p : Parser)
    (payload : JSValue) :
  source = Some (parent (window st)) ->
  parseMessage data = Ok message ->
  ownProperty (parsers (window st)) (eventType message) = Some p ->
  p (eventData message) = Ok payload ->
  onMessage source data st
  = mainEmit (eventType message) (emitArguments payload) st.
Proof.
  intros -> Hparse Hp Hok. unfold onMessage, tryEmit, decodePayload.
  rewrite fromParent_true, Hparse, (lookupParser_registered _ _ _ Hp), Hok.
  reflexivity.
Qed.

(** C6.  For a [viewport_changed] message from the parent frame whose [width]
    is [null] or missing, the emitted payload carries [window.innerWidth] as
    its width, read when the message is decoded; a finite [height] and the two
    boolean flags are passed on as given.  With height 600, width [null], both
    flags [true] and an inner width of 375 this is the payload
    [{height: 600, width: 375, is_state_stable: true, is_expanded: true}]. *)
Theorem viewport_width_defaults_to_window `{Imports} (st : State)
    (source : option nat) (data : JSValue)
    (fields : list (string * JSValue)) (height : float)
    (stable expanded : bool) :
  source = Some (parent (window st)) ->
  parseMessage data
    = Ok {| eventType := "viewport_changed"; eventData := JObj fields |} ->
  prop fields "height" = JNum height ->
  finite height = true ->
  prop fields "width" = JNull \/ prop fields "width" = JUndefined ->
  prop fields "is_state_stable" = JBool stable ->
  prop fields "is_expanded" = JBool expanded ->
  let payload := JObj [ ("height", JNum height);
                        ("width", JNum (innerWidth (window st)));
                        ("is_state_stable", JBool stable);
                        ("is_expanded", JBool expanded) ] in
  decodePayload (window st)
    {| eventType := "viewport_changed"; eventData := JObj fields |}
  = Ok payload
  /\ emitted (onMessage source data st)
     = emitted st ++ [("viewport_changed", [payload])].
Proof.
  intros Hsource Hparse Hheight Hfinite Hwidth Hstable Hexpanded payload.
  assert (Hdecode :
            json [ ("height", parse_number);
                   ("width", viewport_width (window st));
                   ("is_state_stable", parse_boolean);
                   ("is_expanded", parse_boolean) ] (JObj fields)
            = Ok payload).
  { unfold json, toRecord, bind, parseFields, viewport_width,
      parse_number, parse_boolean.
    rewrite Hheight, Hfinite, Hstable, Hexpanded.
    destruct Hwidth as [-> | ->]; reflexivity. }
  split.
  - exact Hdecode.
  - rewrite (registered_message_emitted st source data _ _ payload
               Hsource Hparse eq_refl Hdecode).
    now rewrite emitted_mainEmit.
Qed.

Lemma viewport_width_defaults_to_window_witness :
  let st := createMiniAppsEventEmitter page in
  let fields := [ ("height", JNum 600%float); ("width", JNull);
                  ("is_state_stable", JBool true);
                  ("is_expanded", JBool true) ] in
  innerWidth (window st) = 375%float
  /\ emitted (@onMessage strictImports (Some 1)
                (envelope "viewport_changed" (JObj fields)) st)
     = [("viewport_changed",
         [JObj [ ("height", JNum 600%float); ("width", JNum 375%float);
                 ("is_state_stable", JBool true);
                 ("is_expanded", JBool true) ]])].
Proof.
  intros st fields. split; [reflexivity|].
  exact (proj2 (viewport_width_defaults_to_window (H := strictImports)
                  st (Some 1) (envelope "viewport_changed" (JObj fields))
                  fields 600%float true true
                  eq_refl eq_refl eq_refl eq_refl (or_introl eq_refl)
                  eq_refl eq_refl)).
Defined.

(** C7.  For a [popup_closed] message from the parent frame whose [eventData]
    is [null] or [undefined], the payload is replaced by an empty object
    before the fields are read, decoding succeeds with
    [{button_id: undefined}], and that object is emitted.  In an object
    payload a [null] or missing [button_id] decodes to [undefined] as well. *)
Theorem popup_closed_without_data `{Imports} (st : State) (source : option nat)
    (data : JSValue) (message : MiniAppsMessage) :
  source = Some (parent (window st)) ->
  parseMessage data = Ok message ->
  eventType message = "popup_closed" ->
  eventData message = JNull \/ eventData message = JUndefined ->
  decodePayload (window st) message = Ok (JObj [("button_id", JUndefined)])
  /\ emitted (onMessage source data st)
     = emitted st ++ [("popup_closed", [JObj [("button_id", JUndefined)]])]
  /\ (forall fields,
        prop fields "button_id" = JNull \/ prop fields "button_id" = JUndefined ->
        popup_closed (JObj fields) = Ok (JObj [("button_id", JUndefined)])).
Proof.
  intros Hsource Hparse Htype Hdata.
  destruct message as [type payload]; simpl in Htype, Hdata; subst type.
  assert (Hdecode : popup_closed payload = Ok (JObj [("button_id", JUndefined)])).
  { destruct Hdata as [-> | ->]; reflexivity. }
  split; [exact Hdecode|]. split.
  - rewrite (registered_message_emitted st source data _ _ _
               Hsource Hparse eq_refl Hdecode).
    now rewrite emitted_mainEmit.
  - intros fields Hbutton.
    unfold popup_closed, json, toRecord, bind, parseFields, popup_button_id.
    simpl nullish. destruct Hbutton as [-> | ->]; reflexivity.
Qed.

Lemma popup_closed_without_data_witness :
  let st := createMiniAppsEventEmitter page in
  emitted (@onMessage strictImports (Some 1) (envelope "popup_closed" JNull) st)
  = [("popup_closed", [JObj [("button_id", JUndefined)]])].
Proof.
  intro st.
  exact (proj1 (proj2 (popup_closed_without_data (H := strictImports)
                         st (Some 1) (envelope "popup_closed" JNull)
                         {| eventType := "popup_closed"; eventData := JNull |}
                         eq_refl eq_refl eq_refl (or_introl eq_refl)))).
Defined.

(** ** The resize listener *)

(** C8.  While the two window listeners are installed, a resize event makes
    the emitter emit [viewport_changed] with the window's current width and
    height and both flags [true]; no message is involved.  Every listener of
    [viewport_changed] is called with that payload.  After a resize to
    800 x 600 the payload is
    [{width: 800, height: 600, is_state_stable: true, is_expanded: true}]. *)
Theorem resize_emits_viewport_changed `{Imports} (st : State)
    (width height : float) :
  attached st ->
  let payload (w h : float) :=
    JObj [ ("width", JNum w); ("height", JNum h);
           ("is_state_stable", JBool true); ("is_expanded", JBool true) ] in
  dispatchEvent ResizeEvent st
  = mainEmit "viewport_changed"
      [payload (innerWidth (window st)) (innerHeight (window st))] st
  /\ emitted (resizeTo width height st)
     = emitted st ++ [("viewport_changed", [payload width height])]
  /\ (forall l,
        In l (EventEmitter.listenersOf "viewport_changed" (mainEmitter st)) ->
        In (l, [payload width height]) (calls (resizeTo width height st)))
  /\ errors (resizeTo width height st) = errors st.
Proof.
  intros Hst payload. split.
  - now rewrite (dispatch_resize_attached st Hst).
  - unfold resizeTo. rewrite dispatch_resize_attached by exact Hst.
    unfold onResize. rewrite mainEmit_spec. simpl.
    split; [reflexivity|]. split; [|reflexivity].
    intros l Hl. apply in_or_app; right. apply in_or_app; left.
    apply in_map_iff. now exists l.
Qed.

Lemma resize_emits_viewport_changed_witness :
  let st := createMiniAppsEventEmitter page in
  attached st
  /\ emitted (@resizeTo strictImports 800%float 600%float st)
     = [("viewport_changed",
         [JObj [ ("width", JNum 800%float); ("height", JNum 600%float);
                 ("is_state_stable", JBool true);
                 ("is_expanded", JBool true) ]])].
Proof.
  intro st. split; [reflexivity|].
  exact (proj1 (proj2 (resize_emits_viewport_changed (H := strictImports)
                         st 800%float 600%float eq_refl))).
Defined.

(** ** The [data] field of [clipboard_text_received] *)

(** [null] is kept, [undefined] stays [undefined], and every other value is
    left to [string()]. *)
Lemma clipboard_data_cases `{Imports} (value : JSValue) :
  clipboard_data JNull = Ok JNull
  /\ clipboard_data JUndefined = Ok JUndefined
  /\ (nullish value = false -> clipboard_data value = parse_string value).
Proof.
  repeat split. intro Hvalue.
  destruct value; try discriminate Hvalue; reflexivity.
Qed.

Lemma clipboard_payload_cases `{Imports} (w : Window) (id : string) :
  let decode data :=
    json [("req_id", parse_string); ("data", clipboard_data)]
         (JObj [("req_id", JStr id); ("data", data)]) in
  ownProperty (parsers w) "clipboard_text_received"
    = Some (json [("req_id", parse_string); ("data", clipboard_data)])
  /\ decode JNull = Ok (JObj [("req_id", JStr id); ("data", JNull)])
  /\ decode JUndefined = Ok (JObj [("req_id", JStr id); ("data", JUndefined)])
  /\ (forall s, decode (JStr s) = Ok (JObj [("req_id", JStr id); ("data", JStr s)])).
Proof. cbv zeta. repeat split. Qed.

(** Whether a [data] that is neither a string nor [null] nor [undefined] is
    rejected depends on what [string()] coerces: the number 5 is rejected
    when nothing is coerced and accepted when numbers are turned into text. *)
Lemma clipboard_number_depends_on_coercion :
  @clipboard_data strictImports (JNum 5%float) = Throw (ValidationError "string")
  /\ @clipboard_data printingImports (JNum 5%float) = Ok (JStr "5").
Proof. split; reflexivity. Qed.

(** * Further properties of the message listener *)

Lemma onMessage_frame `{Imports} (source : option nat) (data : JSValue)
    (st : State) :
  window (onMessage source data st) = window st
  /\ mainEmitter (onMessage source data st) = mainEmitter st
  /\ subEmitter (onMessage source data st) = subEmitter st
  /\ emitted (onMessage source data st)
     = emitted st ++ emissionsOf (window st) source data.
Proof.
  unfold onMessage, emissionsOf, tryEmit.
  destruct (fromParent source (window st)); simpl;
    [|now rewrite app_nil_r].
  destruct (parseMessage data) as [message|]; [|now rewrite app_nil_r].
  destruct (decodePayload (window st) message) as [payload|cause]; simpl.
  - now rewrite window_mainEmit, mainEmitter_mainEmit, subEmitter_mainEmit,
      emitted_mainEmit.
  - now rewrite app_nil_r.
Qed.

(** A message from which no envelope can be decoded is dropped without a
    trace, whoever sent it: nothing is emitted, no listener is called and
    nothing is logged. *)
Theorem malformed_envelope_ignored `{Imports} (st : State)
    (source : option nat) (data : JSValue) (e : Exception) :
  attached st ->
  parseMessage data = Throw e ->
  dispatchEvent (MessageEvent source data) st = st.
Proof.
  intros Hst Hparse. rewrite (dispatch_message_attached st source data Hst).
  unfold onMessage. rewrite Hparse.
  now destruct (negb (fromParent source (window st))).
Qed.

Lemma malformed_envelope_ignored_witness :
  let st := createMiniAppsEventEmitter page in
  @parseMessage strictImports (JStr "not an envelope")
    = Throw (ValidationError "json")
  /\ @dispatchEvent strictImports
       (MessageEvent (Some 1) (JStr "not an envelope")) st = st.
Proof.
  intro st. split; [reflexivity|].
  exact (malformed_envelope_ignored (H := strictImports) st (Some 1)
           (JStr "not an envelope") (ValidationError "json")
           eq_refl eq_refl).
Defined.

Lemma lookupParser_inherited `{Imports} (w : Window) (key : string) :
  In key objectPrototypeProperties -> lookupParser w key = Inherited.
Proof.
  intro Hin. simpl in Hin.
  repeat (destruct Hin as [<- | Hin]; [reflexivity|]).
  contradiction.
Qed.

(** An event whose type is the name of a property that [parsers] inherits
    from [Object.prototype] ([toString], [constructor], ...) is never emitted,
    whatever its payload: line 145 calls a [parse] that does not exist, and
    the resulting error is logged. *)
Theorem inherited_property_event_is_logged `{Imports} (st : State)
    (source : option nat) (data : JSValue) (message : MiniAppsMessage) :
  source = Some (parent (window st)) ->
  parseMessage data = Ok message ->
  In (eventType message) objectPrototypeProperties ->
  onMessage source data st
  = loggerError (diagnostic (eventType message)) message
      (NotAFunction "parser.parse") st
  /\ emitted (onMessage source data st) = emitted st
  /\ calls (onMessage source data st) = calls st.
Proof.
  intros -> Hparse Hin.
  assert (Hcb : onMessage (Some (parent (window st))) data st
                = loggerError (diagnostic (eventType message)) message
                    (NotAFunction "parser.parse") st).
  { unfold onMessage, tryEmit, decodePayload.
    now rewrite fromParent_true, Hparse, (lookupParser_inherited _ _ Hin). }
  rewrite Hcb. now repeat split.
Qed.

Lemma inherited_property_event_is_logged_witness :
  let st := createMiniAppsEventEmitter page in
  let st' := @onMessage strictImports (Some 1)
               (envelope "toString" (JObj [("level", JNum 3%float)])) st in
  emitted st' = [] /\ List.length (errors st') = 1.
Proof.
  intros st st'.
  destruct (inherited_property_event_is_logged (H := strictImports)
              st (Some 1)
              (envelope "toString" (JObj [("level", JNum 3%float)]))
              {| eventType := "toString";
                 eventData := JObj [("level", JNum 3%float)] |}
              eq_refl eq_refl (or_intror (or_intror (or_intror (or_intror
                (or_intror (or_introl eq_refl)))))))
    as (Hcb & Hemitted & _).
  split; [exact Hemitted|].
  unfold st'. rewrite Hcb. reflexivity.
Defined.

(** One window message has exactly one of three outcomes: it is ignored and
    the state stays as it was; or one event is emitted and nothing is logged;
    or one error is logged and nothing is emitted and no listener is
    called. *)
Theorem message_is_ignored_emitted_or_logged `{Imports} (st : State)
    (source : option nat) (data : JSValue) :
  let st' := onMessage source data st in
  st' = st
  \/ (exists event args,
        emitted st' = emitted st ++ [(event, args)] /\ errors st' = errors st)
  \/ (exists entry,
        errors st' = errors st ++ [entry]
        /\ emitted st' = emitted st /\ calls st' = calls st).
Proof.
  intro st'. subst st'. unfold onMessage, tryEmit.
  destruct (negb (fromParent source (window st))); [now left|].
  destruct (parseMessage data) as [message|]; [|now left].
  destruct (decodePayload (window st) message) as [payload|cause]; simpl.
  - right; left. exists (eventType message), (emitArguments payload).
    now rewrite emitted_mainEmit, errors_mainEmit.
  - right; right. eexists. repeat split.
Qed.

Lemma run_app `{Imports} (a b : list Action) (st : State) :
  run (a ++ b) st = run b (run a st).
Proof. unfold run. apply fold_left_app. Qed.

(** Messages are handled one by one and independently of each other: after
    any sequence of window messages the record of emissions is the old record
    followed by what each message contributes on its own, in arrival order.
    No emission is lost, repeated or reordered, and what a message
    contributes does not depend on the messages before it. *)
Theorem emissions_follow_message_order `{Imports}
    (msgs : list (option nat * JSValue)) (st : State) :
  attached st ->
  emitted (run (deliveries_of msgs) st)
  = emitted st
    ++ flat_map (fun m => emissionsOf (window st) (fst m) (snd m)) msgs.
Proof.
  revert st. induction msgs as [|[source data] msgs IH]; intros st Hst.
  - simpl. now rewrite app_nil_r.
  - change (run (deliveries_of ((source, data) :: msgs)) st)
      with (run (deliveries_of msgs)
                (dispatchEvent (MessageEvent source data) st)).
    rewrite (dispatch_message_attached st source data Hst).
    destruct (onMessage_frame source data st) as (Hw & _ & _ & Hemitted).
    rewrite IH.
    + rewrite Hw, Hemitted. simpl. now rewrite app_assoc.
    + unfold attached. now rewrite Hw.
Qed.

Lemma emissions_follow_message_order_witness :
  let st := createMiniAppsEventEmitter page in
  let msgs := [ (Some 1, envelope "popup_closed" JNull);
                (Some 2, envelope "popup_closed" JNull);
                (Some 1, JStr "noise");
                (Some 1, envelope "new_event" (JStr "hello")) ] in
  emitted (@run strictImports (deliveries_of msgs) st)
  = [ ("popup_closed", [JObj [("button_id", JUndefined)]]);
      ("new_event", [JStr "hello"]) ].
Proof.
  intros st msgs.
  exact (emissions_follow_message_order (H := strictImports) msgs st eq_refl).
Defined.

(** ** Registered events *)

Lemma ownProperty_In (table : list (string * Parser)) (key : string)
    (p : Parser) :
  ownProperty table key = Some p -> In (key, p) table.
Proof.
  induction table as [|[k q] table IH]; simpl; [discriminate|].
  destruct (String.eqb k key) eqn:Hk.
  - intro Hp. apply String.eqb_eq in Hk. left. congruence.
  - intro Hp. right. now apply IH.
Qed.

Lemma json_returns_object (schema : list (string * Parser))
    (v payload : JSValue) :
  json schema v = Ok payload -> exists fields, payload = JObj fields.
Proof.
  unfold json, bind. destruct (toRecord v) as [record|]; [|discriminate].
  destruct (parseFields schema record) as [parsed|]; [|discriminate].
  intro Hok. exists parsed. congruence.
Qed.

(** Every parser of the table produces an object, so a decoded payload is
    never dropped by the truthiness test of line 146. *)
Lemma registered_parser_returns_object `{Imports} (w : Window) (key : string)
    (p : Parser) (v payload : JSValue) :
  ownProperty (parsers w) key = Some p ->
  p v = Ok payload ->
  exists fields, payload = JObj fields.
Proof.
  intros Hp Hok. apply ownProperty_In in Hp. simpl in Hp.
  repeat (destruct Hp as [Hp | Hp];
          [injection Hp as _ <-; exact (json_returns_object _ _ _ Hok)|]).
  contradiction.
Qed.

(** A message from the parent frame whose event type has a parser and whose
    payload the parser accepts leads to exactly one emission, which carries
    the decoded payload; every listener registered for that event is called
    with the decoded payload, and nothing is logged. *)
Theorem valid_registered_event_is_emitted `{Imports} (st : State)
    (source : option nat) (data : JSValue) (message : MiniAppsMessage)
    (p : Parser) (payload : JSValue) :
  source = Some (parent (window st)) ->
  parseMessage data = Ok message ->
  ownProperty (parsers (window st)) (eventType message) = Some p ->
  p (eventData message) = Ok payload ->
  emitted (onMessage source data st)
    = emitted st ++ [(eventType message, [payload])]
  /\ (forall l,
        In l (EventEmitter.listenersOf (eventType message) (mainEmitter st)) ->
        In (l, [payload]) (calls (onMessage source data st)))
  /\ errors (onMessage source data st) = errors st.
Proof.
  intros Hsource Hparse Hp Hok.
  rewrite (registered_message_emitted st source data message p payload
             Hsource Hparse Hp Hok).
  destruct (registered_parser_returns_object _ _ _ _ _ Hp Hok) as (fields & ->).
  change (emitArguments (JObj fields)) with [JObj fields].
  rewrite mainEmit_spec; simpl. split; [reflexivity|]. split; [|reflexivity].
  intros l Hl. apply in_or_app; right. apply in_or_app; left.
  apply in_map_iff. now exists l.
Qed.

Lemma valid_registered_event_is_emitted_witness :
  let st := MiniAppsEventEmitter.on "invoice_closed" 4
              (createMiniAppsEventEmitter page) in
  let payload := JObj [("slug", JStr "tea"); ("status", JStr "paid")] in
  In (4, [payload])
     (calls (@onMessage strictImports (Some 1)
               (envelope "invoice_closed" payload) st)).
Proof.
  intros st payload.
  refine (proj1 (proj2 (valid_registered_event_is_emitted
                          (H := strictImports) st (Some 1)
                          (envelope "invoice_closed" payload)
                          {| eventType := "invoice_closed";
                             eventData := payload |}
                          (json [("slug", parse_string);
                                 ("status", parse_string)])
                          payload eq_refl eq_refl eq_refl eq_refl)) 4 _).
  left; reflexivity.
Defined.

(** ** The catch-all stream *)

Lemma bridge_reaches_subscriber (st : State) (listener : nat)
    (event : string) (args : list JSValue) :
  EventEmitter.subscribeListeners (mainEmitter st) = [TheBridge] ->
  In (listener,
      [JObj [("name", JStr event); ("payload", nth 0 args JUndefined)]])
     (calls (mainEmit event args (MiniAppsEventEmitter.subscribe listener st))).
Proof.
  intro Hbridge. rewrite mainEmit_spec. simpl. rewrite Hbridge. simpl.
  rewrite app_nil_r.
  apply in_or_app; right. apply in_or_app; right.
  unfold deliveries, bridged, EventEmitter.listenersOf. simpl.
  rewrite filter_app, map_app, map_app. apply in_or_app; right.
  left; reflexivity.
Qed.

(** While the bridge of lines 100-102 is in place, a listener added with
    [subscribe] is called on every emission of [mainEmitter], whatever the
    event, with one object holding the event name and the first argument of
    the emission; an emission without payload shows up with [payload]
    [undefined]. *)
Theorem subscriber_receives_every_emission (st : State) (listener : nat)
    (event : string) (args : list JSValue) :
  EventEmitter.subscribeListeners (mainEmitter st) = [TheBridge] ->
  In (listener,
      [JObj [("name", JStr event); ("payload", nth 0 args JUndefined)]])
     (calls (mainEmit event args (MiniAppsEventEmitter.subscribe listener st))).
Proof.
  intro Hbridge. rewrite mainEmit_spec. simpl calls.
  rewrite Hbridge. simpl flat_map. rewrite app_nil_r.
  apply in_or_app; right. apply in_or_app; right.
  unfold deliveries, EventEmitter.listenersOf. simpl EventEmitter.listeners.
  rewrite filter_app, map_app, map_app. apply in_or_app; right.
  left; reflexivity.
Qed.

Lemma subscriber_receives_every_emission_witness :
  In (9, [JObj [("name", JStr "popup_closed"); ("payload", JUndefined)]])
     (calls (mainEmit "popup_closed" []
               (MiniAppsEventEmitter.subscribe 9
                  (createMiniAppsEventEmitter page)))).
Proof.
  exact (subscriber_receives_every_emission
           (createMiniAppsEventEmitter page) 9 "popup_closed" [] eq_refl).
Defined.

(** A falsy payload of an event without parser never reaches the catch-all
    stream: the subscriber is told the event name and gets [undefined] in
    place of [0], [false], the empty string or [null]; a truthy payload
    arrives unchanged. *)
Theorem subscriber_sees_undefined_for_falsy_payload `{Imports} (st : State)
    (listener : nat) (source : option nat) (data : JSValue)
    (message : MiniAppsMessage) :
  EventEmitter.subscribeListeners (mainEmitter st) = [TheBridge] ->
  source = Some (parent (window st)) ->
  parseMessage data = Ok message ->
  ownProperty (parsers (window st)) (eventType message) = None ->
  ~ In (eventType message) objectPrototypeProperties ->
  In (listener,
      [JObj [("name", JStr (eventType message));
             ("payload", if truthy (eventData message)
                         then eventData message else JUndefined)]])
     (calls (onMessage source data
               (MiniAppsEventEmitter.subscribe listener st))).
Proof.
  intros Hbridge -> Hparse Hown Hinherited.
  set (st1 := MiniAppsEventEmitter.subscribe listener st).
  assert (Hcb : onMessage (Some (parent (window st))) data st1
                = mainEmit (eventType message)
                    (emitArguments (eventData message)) st1).
  { unfold onMessage, tryEmit, decodePayload.
    change (window st1) with (window st).
    now rewrite fromParent_true, Hparse, (lookupParser_absent _ _ Hown Hinherited). }
  rewrite Hcb.
  replace (if truthy (eventData message) then eventData message else JUndefined)
    with (nth 0 (emitArguments (eventData message)) JUndefined)
    by (unfold emitArguments; now destruct (truthy (eventData message))).
  now apply bridge_reaches_subscriber.
Qed.

Lemma subscriber_sees_undefined_for_falsy_payload_witness :
  In (9, [JObj [("name", JStr "new_event"); ("payload", JUndefined)]])
     (calls (@onMessage strictImports (Some 1)
               (envelope "new_event" (JBool false))
               (MiniAppsEventEmitter.subscribe 9
                  (createMiniAppsEventEmitter page)))).
Proof.
  refine (subscriber_sees_undefined_for_falsy_payload (H := strictImports)
            (createMiniAppsEventEmitter page) 9 (Some 1)
            (envelope "new_event" (JBool false))
            {| eventType := "new_event"; eventData := JBool false |}
            eq_refl eq_refl eq_refl eq_refl _).
  simpl. intuition discriminate.
Defined.

(** ** [subscribe] and [unsubscribe] *)

Lemma removeFirst_after_append (event : string) (listener : nat)
    (l : list (string * nat)) :
  List.length (EventEmitter.removeFirst Nat.eqb event listener
                 (l ++ [(event, listener)]))
  = List.length l.
Proof.
  induction l as [|[n f] l IH]; simpl.
  - now rewrite String.eqb_refl, Nat.eqb_refl.
  - destruct (String.eqb n event && Nat.eqb f listener); simpl.
    + rewrite length_app; simpl. lia.
    + now rewrite IH.
Qed.

(** [unsubscribe] right after [subscribe] of the same listener always brings
    [count] back to what it was, also when the listener had been subscribed
    before (then the older registration goes and the new one stays). *)
Theorem unsubscribe_after_subscribe_restores_count (st : State)
    (listener : nat) :
  MiniAppsEventEmitter.count
    (MiniAppsEventEmitter.unsubscribe listener
       (MiniAppsEventEmitter.subscribe listener st))
  = MiniAppsEventEmitter.count st.
Proof.
  unfold MiniAppsEventEmitter.count, EventEmitter.count; simpl.
  now rewrite removeFirst_after_append.
Qed.

Lemma not_subscribed_no_match (st : State) (listener : nat) :
  ~ In listener (EventEmitter.listenersOf "event" (subEmitter st)) ->
  forall r, In r (EventEmitter.listeners (subEmitter st)) ->
            String.eqb (fst r) "event" && Nat.eqb (snd r) listener = false.
Proof.
  intros Hnot [n f] Hr; simpl.
  destruct (String.eqb n "event") eqn:Hn; [|reflexivity]. simpl.
  destruct (Nat.eqb f listener) eqn:Hf; [|reflexivity].
  exfalso. apply Hnot. apply Nat.eqb_eq in Hf. subst f.
  unfold EventEmitter.listenersOf. apply in_map_iff.
  exists (n, listener). split; [reflexivity|].
  apply filter_In. now split.
Qed.

(** For a listener that is not subscribed, [unsubscribe] changes nothing, and
    [subscribe] followed by [unsubscribe] gives back the very same state. *)
Theorem subscribe_unsubscribe_round_trip (st : State) (listener : nat) :
  ~ In listener (EventEmitter.listenersOf "event" (subEmitter st)) ->
  MiniAppsEventEmitter.unsubscribe listener st = st
  /\ MiniAppsEventEmitter.unsubscribe listener
       (MiniAppsEventEmitter.subscribe listener st) = st.
Proof.
  intro Hnot. pose proof (not_subscribed_no_match st listener Hnot) as Hno.
  destruct st as [w m [ls ss] e c er]; simpl in Hno.
  unfold MiniAppsEventEmitter.unsubscribe, MiniAppsEventEmitter.subscribe,
    setSubEmitter, EventEmitter.off, EventEmitter.on; simpl. split.
  - now rewrite (removeFirst_absent Nat.eqb "event" listener ls Hno).
  - rewrite (removeFirst_first Nat.eqb "event" listener ls [] listener Hno
               (Nat.eqb_refl listener)).
    now rewrite app_nil_r.
Qed.

Lemma subscribe_unsubscribe_round_trip_witness :
  let st := MiniAppsEventEmitter.subscribe 3 (createMiniAppsEventEmitter page) in
  MiniAppsEventEmitter.unsubscribe 9 (MiniAppsEventEmitter.subscribe 9 st) = st.
Proof.
  intro st.
  refine (proj2 (subscribe_unsubscribe_round_trip st 9 _)).
  simpl. intuition discriminate.
Defined.

(** ** Window events and the registrations *)


(** In a page that had no listener of ours, whatever is done with the created
    emitter short of disposing it, the two window listeners stay installed
    (once each), the native event handlers stay defined and the bridge stays
    the only catch-all listener of [mainEmitter]. *)
Theorem emitter_stays_wired `{Imports} (w : Window) (actions : list Action) :
  windowListeners w = [] ->
  let st := run actions (createMiniAppsEventEmitter w) in
  windowListeners (window st) = [("resize", OnResize); ("message", OnMessage)]
  /\ eventHandlersDefined (window st) = true
  /\ EventEmitter.subscribeListeners (mainEmitter st) = [TheBridge].
Proof.
  intros Hw st. split; [|split].
  - apply run_attached. now apply create_attached.
  - subst st. unfold run.
    apply (fold_left_invariant
             (fun s => eventHandlersDefined (window s) = true));
      [|unfold createMiniAppsEventEmitter, onWindow; simpl;
        rewrite Hw; reflexivity].
    intros s a Hs. destruct a; simpl; auto.
    + destruct (dispatchEvent_wiring ev s) as (-> & _). exact Hs.
    + unfold resizeTo.
      destruct (dispatchEvent_wiring ResizeEvent
                  (setWindow (setViewport width height (window s)) s))
        as (-> & _).
      exact Hs.
  - subst st. now rewrite run_bridge.
Qed.

Lemma emitter_stays_wired_witness :
  let st := @run strictImports
              [ CallOn "popup_closed" 1; ResizeWindow 800%float 600%float;
                Deliver (MessageEvent (Some 1) (envelope "popup_closed" JNull));
                CallSubscribe 2; CallUnsubscribe 2 ]
              (createMiniAppsEventEmitter page) in
  windowListeners (window st) = [("resize", OnResize); ("message", OnMessage)].
Proof.
  intro st.
  exact (proj1 (emitter_stays_wired (H := strictImports) page
                  [ CallOn "popup_closed" 1; ResizeWindow 800%float 600%float;
                    Deliver (MessageEvent (Some 1)
                               (envelope "popup_closed" JNull));
                    CallSubscribe 2; CallUnsubscribe 2 ]
                  eq_refl)).
Defined.

(** ** After disposal *)

Lemma dispose_attached_no_listener (st : State) :
  attached st -> windowListeners (window (dispose st)) = [].
Proof.
  intro Hst. unfold dispose, createCleanup; simpl.
  rewrite Hst. reflexivity.
Qed.

Lemma perform_without_listeners `{Imports} (st : State) (a : Action) :
  windowListeners (window st) = [] ->
  windowListeners (window (perform st a)) = []
  /\ emitted (perform st a) = emitted st
  /\ calls (perform st a) = calls st
  /\ errors (perform st a) = errors st.
Proof.
  intro Hno. destruct a; simpl; try (now repeat split).
  - unfold dispatchEvent. rewrite Hno. now repeat split.
  - unfold resizeTo, dispatchEvent; simpl. rewrite Hno. now repeat split.
Qed.

(** Once an attached emitter is disposed it is silent for good: [count] is
    0, and whatever happens afterwards (messages, resizes, new
    registrations) nothing is emitted, no listener is called and nothing is
    logged. *)
Theorem disposed_emitter_stays_silent `{Imports} (st : State)
    (actions : list Action) :
  attached st ->
  MiniAppsEventEmitter.count (dispose st) = 0
  /\ emitted (run actions (dispose st)) = emitted st
  /\ calls (run actions (dispose st)) = calls st
  /\ errors (run actions (dispose st)) = errors st.
Proof.
  intro Hst. split; [reflexivity|].
  pose proof (dispose_attached_no_listener st Hst) as Hno.
  assert (Hinv : windowListeners (window (run actions (dispose st))) = []
                 /\ emitted (run actions (dispose st)) = emitted (dispose st)
                 /\ calls (run actions (dispose st)) = calls (dispose st)
                 /\ errors (run actions (dispose st)) = errors (dispose st)).
  { unfold run.
    apply (fold_left_invariant
             (fun s => windowListeners (window s) = []
                       /\ emitted s = emitted (dispose st)
                       /\ calls s = calls (dispose st)
                       /\ errors s = errors (dispose st))).
    - intros s a (Hs & He & Hc & Her).
      destruct (perform_without_listeners s a Hs) as (Hs' & He' & Hc' & Her').
      rewrite He', Hc', Her'. now repeat split.
    - now repeat split. }
  destruct Hinv as (_ & He & Hc & Her).
  rewrite He, Hc, Her. now repeat split.
Qed.

Lemma disposed_emitter_stays_silent_witness :
  let st := MiniAppsEventEmitter.on "viewport_changed" 7
              (createMiniAppsEventEmitter page) in
  calls (@run strictImports
           [ ResizeWindow 800%float 600%float;
             Deliver (MessageEvent (Some 1) (envelope "popup_closed" JNull));
             CallOn "viewport_changed" 8; ResizeWindow 640%float 480%float ]
           (dispose st))
  = [].
Proof.
  intro st.
  exact (proj1 (proj2 (proj2 (disposed_emitter_stays_silent
                                (H := strictImports) st
                                [ ResizeWindow 800%float 600%float;
                                  Deliver (MessageEvent (Some 1)
                                             (envelope "popup_closed" JNull));
                                  CallOn "viewport_changed" 8;
                                  ResizeWindow 640%float 480%float ]
                                eq_refl)))).
Defined.

(** * Further properties of the parsers table *)

Lemma object_payload_emitted `{Imports} (st : State) (source : option nat)
    (data : JSValue) (message : MiniAppsMessage) (p : Parser)
    (fields : list (string * JSValue)) :
  source = Some (parent (window st)) ->
  parseMessage data = Ok message ->
  ownProperty (parsers (window st)) (eventType message) = Some p ->
  p (eventData message) = Ok (JObj fields) ->
  emitted (onMessage source data st)
  = emitted st ++ [(eventType message, [JObj fields])].
Proof.
  intros Hsource Hparse Hp Hok.
  rewrite (registered_message_emitted st source data message p (JObj fields)
             Hsource Hparse Hp Hok).
  now rewrite emitted_mainEmit.
Qed.

Lemma rejected_payload_logged `{Imports} (st : State) (source : option nat)
    (data : JSValue) (message : MiniAppsMessage) (p : Parser)
    (cause : Exception) :
  source = Some (parent (window st)) ->
  parseMessage data = Ok message ->
  ownProperty (parsers (window st)) (eventType message) = Some p ->
  p (eventData message) = Throw cause ->
  onMessage source data st
  = loggerError (diagnostic (eventType message)) message cause st.
Proof.
  intros -> Hparse Hp Hthrow. unfold onMessage, tryEmit, decodePayload.
  now rewrite fromParent_true, Hparse, (lookupParser_registered _ _ _ Hp), Hthrow.
Qed.

(** A [viewport_changed] message that states a finite width keeps it: the
    window's own width is not consulted, even when it differs. *)
Theorem viewport_stated_width_is_kept `{Imports} (st : State)
    (source : option nat) (data : JSValue)
    (fields : list (string * JSValue)) (height width : float)
    (stable expanded : bool) :
  source = Some (parent (window st)) ->
  parseMessage data
    = Ok {| eventType := "viewport_changed"; eventData := JObj fields |} ->
  prop fields "height" = JNum height -> finite height = true ->
  prop fields "width" = JNum width -> finite width = true ->
  prop fields "is_state_stable" = JBool stable ->
  prop fields "is_expanded" = JBool expanded ->
  emitted (onMessage source data st)
  = emitted st
    ++ [("viewport_changed",
         [JObj [ ("height", JNum height); ("width", JNum width);
                 ("is_state_stable", JBool stable);
                 ("is_expanded", JBool expanded) ]])].
Proof.
  intros Hsource Hparse Hheight Hfh Hwidth Hfw Hstable Hexpanded.
  apply (object_payload_emitted st source data _ _ _ Hsource Hparse eq_refl).
  simpl eventData.
  unfold json, toRecord, bind, parseFields, viewport_width,
    parse_number, parse_boolean.
  now rewrite Hheight, Hfh, Hwidth, Hfw, Hstable, Hexpanded.
Qed.

Lemma viewport_stated_width_is_kept_witness :
  let st := createMiniAppsEventEmitter page in
  let fields := [ ("height", JNum 600%float); ("width", JNum 320%float);
                  ("is_state_stable", JBool false);
                  ("is_expanded", JBool true) ] in
  emitted (@onMessage strictImports (Some 1)
             (envelope "viewport_changed" (JObj fields)) st)
  = [("viewport_changed", [JObj fields])].
Proof.
  intros st fields.
  exact (viewport_stated_width_is_kept (H := strictImports) st (Some 1)
           (envelope "viewport_changed" (JObj fields)) fields
           600%float 320%float false true
           eq_refl eq_refl eq_refl eq_refl eq_refl eq_refl eq_refl eq_refl).
Defined.

(** In [clipboard_text_received] a [data] that is [null], [undefined] or a
    string is passed on exactly as it came; in particular [null] stays [null]
    and is not turned into [undefined]. *)
Theorem clipboard_data_is_kept `{Imports} (st : State) (source : option nat)
    (data : JSValue) (fields : list (string * JSValue)) (id : string) :
  source = Some (parent (window st)) ->
  parseMessage data
    = Ok {| eventType := "clipboard_text_received";
            eventData := JObj fields |} ->
  prop fields "req_id" = JStr id ->
  prop fields "data" = JNull \/ prop fields "data" = JUndefined
  \/ (exists text, prop fields "data" = JStr text) ->
  emitted (onMessage source data st)
  = emitted st
    ++ [("clipboard_text_received",
         [JObj [("req_id", JStr id); ("data", prop fields "data")]])].
Proof.
  intros Hsource Hparse Hid Hdata.
  apply (object_payload_emitted st source data _ _ _ Hsource Hparse eq_refl).
  simpl eventData.
  unfold json, toRecord, bind, parseFields, clipboard_data, optional,
    parse_string.
  rewrite Hid.
  destruct Hdata as [-> | [-> | (text & ->)]]; reflexivity.
Qed.

Lemma clipboard_data_is_kept_witness :
  let st := createMiniAppsEventEmitter page in
  let fields := [("req_id", JStr "r1"); ("data", JNull)] in
  emitted (@onMessage strictImports (Some 1)
             (envelope "clipboard_text_received" (JObj fields)) st)
  = [("clipboard_text_received", [JObj fields])].
Proof.
  intros st fields.
  exact (clipboard_data_is_kept (H := strictImports) st (Some 1)
           (envelope "clipboard_text_received" (JObj fields)) fields "r1"
           eq_refl eq_refl eq_refl (or_introl eq_refl)).
Defined.

(** In [custom_method_invoked] the [result] is passed on untouched, whatever
    value it is, and a missing or [null] [error] becomes [undefined]. *)
Theorem custom_method_result_is_untouched `{Imports} (st : State)
    (source : option nat) (data : JSValue)
    (fields : list (string * JSValue)) (id : string) :
  source = Some (parent (window st)) ->
  parseMessage data
    = Ok {| eventType := "custom_method_invoked";
            eventData := JObj fields |} ->
  prop fields "req_id" = JStr id ->
  nullish (prop fields "error") = true ->
  emitted (onMessage source data st)
  = emitted st
    ++ [("custom_method_invoked",
         [JObj [ ("req_id", JStr id); ("result", prop fields "result");
                 ("error", JUndefined) ]])].
Proof.
  intros Hsource Hparse Hid Herror.
  apply (object_payload_emitted st source data _ _ _ Hsource Hparse eq_refl).
  simpl eventData.
  unfold json, toRecord, bind, parseFields, optional, parse_string.
  now rewrite Hid, Herror.
Qed.

Lemma custom_method_result_is_untouched_witness :
  let st := createMiniAppsEventEmitter page in
  emitted (@onMessage strictImports (Some 1)
             (envelope "custom_method_invoked"
                (JObj [("req_id", JStr "r7"); ("result", JNum 0%float)])) st)
  = [("custom_method_invoked",
      [JObj [ ("req_id", JStr "r7"); ("result", JNum 0%float);
              ("error", JUndefined) ]])].
Proof.
  intro st.
  exact (custom_method_result_is_untouched (H := strictImports) st (Some 1)
           (envelope "custom_method_invoked"
              (JObj [("req_id", JStr "r7"); ("result", JNum 0%float)]))
           [("req_id", JStr "r7"); ("result", JNum 0%float)] "r7"
           eq_refl eq_refl eq_refl eq_refl).
Defined.

(** A [popup_closed] message that names the pressed button passes the
    identifier on. *)
Theorem popup_button_id_is_kept `{Imports} (st : State) (source : option nat)
    (data : JSValue) (fields : list (string * JSValue)) (button : string) :
  source = Some (parent (window st)) ->
  parseMessage data
    = Ok {| eventType := "popup_closed"; eventData := JObj fields |} ->
  prop fields "button_id" = JStr button ->
  emitted (onMessage source data st)
  = emitted st ++ [("popup_closed", [JObj [("button_id", JStr button)]])].
Proof.
  intros Hsource Hparse Hbutton.
  apply (object_payload_emitted st source data _ _ _ Hsource Hparse eq_refl).
  simpl eventData.
  unfold popup_closed; simpl nullish; cbv iota.
  unfold json, toRecord, bind, parseFields, popup_button_id, parse_string.
  now rewrite Hbutton.
Qed.

Lemma popup_button_id_is_kept_witness :
  let st := createMiniAppsEventEmitter page in
  emitted (@onMessage strictImports (Some 1)
             (envelope "popup_closed" (JObj [("button_id", JStr "ok")])) st)
  = [("popup_closed", [JObj [("button_id", JStr "ok")]])].
Proof.
  intro st.
  exact (popup_button_id_is_kept (H := strictImports) st (Some 1)
           (envelope "popup_closed" (JObj [("button_id", JStr "ok")]))
           [("button_id", JStr "ok")] "ok" eq_refl eq_refl eq_refl).
Defined.

(** ** [theme_changed] *)

Lemma theme_params_fold `{Imports} (record : list (string * JSValue)) :
  theme_params (JObj record)
  = bind (fold_left themeStep record (Ok [])) (fun acc => Ok (JObj acc)).
Proof. reflexivity. Qed.

Lemma themeStep_throw `{Imports} (record : list (string * JSValue))
    (e : Exception) :
  fold_left themeStep record (Throw e) = Throw e.
Proof. induction record as [|kv record IH]; simpl; auto. Qed.

Lemma themeStep_bad_entry `{Imports} (record : list (string * JSValue))
    (key : string) (v : JSValue) (e : Exception) :
  In (key, v) record ->
  optional parse_rgb v = Throw e ->
  forall acc, exists e', fold_left themeStep record acc = Throw e'.
Proof.
  intros Hin Hbad. induction record as [|kv record IH]; [contradiction|].
  intro acc. simpl. destruct Hin as [-> | Hin].
  - destruct acc as [fields|e0]; unfold themeStep; simpl.
    + rewrite Hbad. simpl. exists e. apply themeStep_throw.
    + exists e0. apply themeStep_throw.
  - now apply IH.
Qed.



(** One entry of [theme_params] that is neither [null]/[undefined] nor an
    accepted colour makes the whole [theme_changed] event fail: nothing is
    emitted, not even the entries that were fine, and one error is logged. *)
Theorem theme_changed_bad_colour_drops_event `{Imports} (st : State)
    (source : option nat) (data : JSValue)
    (fields record : list (string * JSValue)) (key : string) (v : JSValue) :
  source = Some (parent (window st)) ->
  parseMessage data
    = Ok {| eventType := "theme_changed"; eventData := JObj fields |} ->
  prop fields "theme_params" = JObj record ->
  In (key, v) record ->
  nullish v = false ->
  coerceRGB v = None ->
  emitted (onMessage source data st) = emitted st
  /\ calls (onMessage source data st) = calls st
  /\ exists entry, errors (onMessage source data st) = errors st ++ [entry].
Proof.
  intros Hsource Hparse Hparams Hin Hnot Hrgb.
  assert (Hbad : optional parse_rgb v = Throw (ValidationError "rgb")).
  { unfold optional, parse_rgb. rewrite Hnot, Hrgb.
    destruct v; try reflexivity; discriminate Hnot. }
  destruct (themeStep_bad_entry record key v _ Hin Hbad (Ok [])) as (e' & He').
  assert (Hthrow :
            json [("theme_params", theme_params)] (JObj fields)
            = Throw (FieldError "theme_params" e')).
  { unfold json, toRecord, bind, parseFields.
    rewrite Hparams, theme_params_fold, He'. reflexivity. }
  rewrite (rejected_payload_logged st source data _ _ _
             Hsource Hparse eq_refl Hthrow).
  simpl. repeat split. eexists. reflexivity.
Qed.

Lemma theme_changed_bad_colour_drops_event_witness :
  let st := createMiniAppsEventEmitter page in
  let record := [("bg_color", JStr "#ffffff"); ("text_color", JNum 7%float)] in
  emitted (@onMessage strictImports (Some 1)
             (envelope "theme_changed" (JObj [("theme_params", JObj record)]))
             st)
  = [].
Proof.
  intros st record.
  exact (proj1 (theme_changed_bad_colour_drops_event (H := strictImports)
                  st (Some 1)
                  (envelope "theme_changed"
                     (JObj [("theme_params", JObj record)]))
                  [("theme_params", JObj record)] record
                  "text_color" (JNum 7%float)
                  eq_refl eq_refl eq_refl (or_intror (or_introl eq_refl))
                  eq_refl eq_refl)).
Defined.


